(** * A shallow embedding of [blockchain/blockchain.py]

    The node of the demo keeps a ledger (a list of blocks), a pool of
    pending transactions and a set of peers.  This file embeds the
    [Blockchain] class and the [/mine] route as Rocq functions and
    states the properties of the specification over them.

    Python objects are modelled as follows.
    - [str] is [string]; [int] is [Z]; a [dict] / [OrderedDict] with
      string keys is an association list in insertion order; a [list]
      is a [list]; the [set] of peers is a [gset string].
    - An exception is a value of [Py.exn]; a call that can raise
      returns [Py.except].  A method of [Blockchain] is a function of
      the object's fields that returns its outcome and the new fields.
    - The unbounded [while] loop of [proof_of_work] takes fuel and
      returns [None] when the fuel is used up.
    - The hash functions, [json.dumps], [str] of a transaction list,
      the RSA library and [time()] belong to libraries; the class is
      embedded over any implementation of them (Section variables). *)

From Stdlib Require Import ZArith List Ascii String DecimalString Lia Sorted.
From stdpp Require Import base gmap sets list strings.

(** ** The fragment of Python the class relies on *)

Module Py.

(** The exception classes the code can meet.  [binascii.Error] is a
    subclass of [ValueError]. *)
Inductive exn : Type :=
| ValueError
| binascii_Error
| TypeError
| IndexError
| KeyError
| ConnectionError.

(** [except ValueError] catches the class and its subclasses. *)
Definition isinstance_ValueError (e : exn) : bool :=
  match e with
  | ValueError | binascii_Error => true
  | _ => false
  end.

Inductive except (A : Type) : Type :=
| Return (a : A)
| Raise (e : exn).
Arguments Return {A} a.
Arguments Raise {A} e.

Definition bind {A B : Type} (m : except A) (k : A → except B) : except B :=
  match m with
  | Return a => k a
  | Raise e => Raise e
  end.

Notation "'let!' x ':=' m 'in' k" := (bind m (λ x, k))
  (at level 10, x name, m at level 100, k at level 200, only parsing).

(** A comprehension [[f(x) for x in l]] whose body can raise: the
    first exception ends it. *)
Fixpoint map_except {A B : Type} (f : A → except B) (l : list A) : except (list B) :=
  match l with
  | [] => Return []
  | x :: l' => let! y := f x in let! ys := map_except f l' in Return (y :: ys)
  end.

(** The values stored in a transaction and returned by
    [submit_transaction]. *)
Inductive value : Type :=
| VStr (s : string)
| VInt (n : Z)
| VBool (b : bool).

(** [bool(v)], the test of [if v:]. *)
Definition truthy (v : value) : bool :=
  match v with
  | VStr s => negb (String.eqb s "")
  | VInt n => negb (Z.eqb n 0)
  | VBool b => b
  end.

(** [v == w]; [bool] is a subclass of [int], so [False == 0]. *)
Definition eq (v w : value) : bool :=
  match v, w with
  | VStr s, VStr t => String.eqb s t
  | VInt n, VInt m => Z.eqb n m
  | VBool b, VBool c => Bool.eqb b c
  | VInt n, VBool b | VBool b, VInt n => Z.eqb n (Z.b2z b)
  | _, _ => false
  end.

(** An [OrderedDict] (or a [dict], which keeps insertion order) with
    string keys. *)
Definition OrderedDict : Type := list (string * value).

(** [d[k]] *)
Fixpoint getitem (d : OrderedDict) (k : string) : except value :=
  match d with
  | [] => Raise KeyError
  | (k', v) :: d' => if String.eqb k' k then Return v else getitem d' k
  end.

(** [s[:d]] on a string: the first [d] characters, and for a negative
    [d] all but the last [-d]. *)
Definition slice_to (s : string) (d : Z) : string :=
  if (0 <=? d)%Z then substring 0 (Z.to_nat d) s
  else substring 0 (Z.to_nat (Z.of_nat (String.length s) + d)) s.

(** [c * d] on a string: [d] copies, none for [d <= 0]. *)
Fixpoint str_repeat (c : string) (n : nat) : string :=
  match n with
  | O => ""
  | S n' => c +:+ str_repeat c n'
  end.

Definition str_mul (c : string) (d : Z) : string := str_repeat c (Z.to_nat d).

(** [str(n)] of an integer. *)
Definition str_int (n : Z) : string := NilZero.string_of_int (Z.to_int n).

(** [binascii.unhexlify] on a [str]: the argument must be ASCII
    ([ValueError] otherwise), of even length and made of hexadecimal
    digits ([binascii.Error] otherwise). *)
Definition hex_digit (c : ascii) : option N :=
  let n := N_of_ascii c in
  if (48 <=? n)%N && (n <=? 57)%N then Some (n - 48)%N
  else if (97 <=? n)%N && (n <=? 102)%N then Some (n - 87)%N
  else if (65 <=? n)%N && (n <=? 70)%N then Some (n - 55)%N
  else None.

Fixpoint is_ascii (s : string) : bool :=
  match s with
  | EmptyString => true
  | String c s' => (N_of_ascii c <? 128)%N && is_ascii s'
  end.

Fixpoint unhexlify_pairs (s : string) : option (list Byte.byte) :=
  match s with
  | EmptyString => Some []
  | String _ EmptyString => None
  | String a (String b s') =>
      match hex_digit a, hex_digit b, unhexlify_pairs s' with
      | Some x, Some y, Some r =>
          Some (byte_of_ascii (ascii_of_N (16 * x + y)) :: r)
      | _, _, _ => None
      end
  end.

Definition unhexlify (s : string) : except (list Byte.byte) :=
  if negb (is_ascii s) then Raise ValueError
  else match unhexlify_pairs s with
       | Some bs => Return bs
       | None => Raise binascii_Error
       end.

(** [l[:-1]] *)
Definition drop_last {A : Type} (l : list A) : list A := removelast l.

(** [l[-1]] *)
Definition last_item {A : Type} (l : list A) : except A :=
  match last l with
  | Some x => Return x
  | None => Raise IndexError
  end.

End Py.

Import Py.

(** ** The libraries the class is linked with *)

(** A block is the [dict] built by [create_block]; its keys are the
    fields below.  The timestamp is a [float], which the code stores and
    serialises but never computes with. *)
Record Block_ (float : Type) : Type := mkBlock {
  block_number : Z;
  timestamp : float;
  block_transactions : list OrderedDict;
  nonce : Z;
  previous_hash : string
}.
Arguments mkBlock {float}.
Arguments block_number {float}.
Arguments timestamp {float}.
Arguments block_transactions {float}.
Arguments nonce {float}.
Arguments previous_hash {float}.

(** What the code takes from [hashlib], [json], the builtins and
    [Crypto].
    - [sha256_hexdigest s] is [hashlib.new('sha256')], [update] with the
      UTF-8 bytes of [s], [hexdigest()].
    - [json_dumps b] is [json.dumps(b, sort_keys=True)].
    - [repr_OrderedDict d] is [repr(d)] (and [str(d)]).
    - [RSA_importKey], [SHA_new] and [PKCS1_v1_5_verify k h sig], which
      is [PKCS1_v1_5.new(k).verify(h, sig)], are the calls into
      [Crypto]; each outcome a Python call can have (a returned value
      or an exception) is allowed.
    - [check_bracketed_netloc] and [checknetloc_nfkc] are the two checks
      of [urllib.parse.urlsplit] that need [ipaddress] and
      [unicodedata]: the first is run on a netloc with an IPv6 literal
      in brackets, the second on a netloc that is not ASCII. *)
Class Library : Type := {
  float : Type;
  sha256_hexdigest : string → string;
  json_dumps : Block_ float → string;
  repr_OrderedDict : OrderedDict → string;
  RsaKey : Type;
  SHA1Hash : Type;
  RSA_importKey : list Byte.byte → except RsaKey;
  SHA_new : string → SHA1Hash;
  PKCS1_v1_5_verify : RsaKey → SHA1Hash → list Byte.byte → except bool;
  check_bracketed_netloc : string → except unit;
  checknetloc_nfkc : string → except unit
}.

Abbreviation Block := (Block_ float).

(** ** [urllib.parse.urlparse]

    The function of CPython 3.11 on a [str], with the default
    [scheme=''] and [allow_fragments=True].  Since CPython 3.9 the text
    before the first colon is a scheme whenever it starts with a letter
    and is made of scheme characters, also when only digits follow the
    colon. *)

Module Urllib.

Record ParseResult : Type := mkParseResult {
  scheme : string;
  netloc : string;
  path : string;
  params : string;
  query : string;
  fragment : string
}.

Definition code (c : ascii) : N := N_of_ascii c.

Definition is_alpha (c : ascii) : bool :=
  ((65 <=? code c)%N && (code c <=? 90)%N) || ((97 <=? code c)%N && (code c <=? 122)%N).

Definition is_digit (c : ascii) : bool :=
  (48 <=? code c)%N && (code c <=? 57)%N.

(** [c in scheme_chars]: letters, digits and [+-.] *)
Definition in_scheme_chars (c : ascii) : bool :=
  is_alpha c || is_digit c || Ascii.eqb c "+" || Ascii.eqb c "-" || Ascii.eqb c ".".

Definition lower_char (c : ascii) : ascii :=
  if ((65 <=? code c)%N && (code c <=? 90)%N) then ascii_of_N (code c + 32) else c.

Fixpoint lower (s : string) : string :=
  match s with
  | EmptyString => EmptyString
  | String c s' => String (lower_char c) (lower s')
  end.

Fixpoint str_forall (p : ascii → bool) (s : string) : bool :=
  match s with
  | EmptyString => true
  | String c s' => p c && str_forall p s'
  end.

Fixpoint str_filter (p : ascii → bool) (s : string) : string :=
  match s with
  | EmptyString => EmptyString
  | String c s' => if p c then String c (str_filter p s') else str_filter p s'
  end.

(** [(s[:i], s[i:])] for the first index [i] whose character satisfies
    [p]; [None] when [find] returns [-1]. *)
Fixpoint find_split (p : ascii → bool) (s : string) : option (string * string) :=
  match s with
  | EmptyString => None
  | String c s' =>
      if p c then Some (EmptyString, s)
      else match find_split p s' with
           | Some (a, b) => Some (String c a, b)
           | None => None
           end
  end.

(** The same for the last such index ([rfind]). *)
Fixpoint rfind_split (p : ascii → bool) (s : string) : option (string * string) :=
  match s with
  | EmptyString => None
  | String c s' =>
      match rfind_split p s' with
      | Some (a, b) => Some (String c a, b)
      | None => if p c then Some (EmptyString, s) else None
      end
  end.

Definition contains (c : ascii) (s : string) : bool :=
  negb (str_forall (λ x, negb (Ascii.eqb x c)) s).

(** [s[1:]] *)
Definition tail (s : string) : string :=
  match s with
  | EmptyString => EmptyString
  | String _ s' => s'
  end.

(** [url.lstrip(_WHATWG_C0_CONTROL_OR_SPACE)] *)
Fixpoint lstrip_c0 (s : string) : string :=
  match s with
  | EmptyString => EmptyString
  | String c s' => if (code c <=? 32)%N then lstrip_c0 s' else s
  end.

(** The [replace] of each of [_UNSAFE_URL_BYTES_TO_REMOVE] by [''] *)
Definition remove_unsafe (s : string) : string :=
  str_filter (λ c, negb ((code c =? 9)%N || (code c =? 13)%N || (code c =? 10)%N)) s.

(** The scheme, when the text before the first [:] is one. *)
Definition split_scheme (url : string) : string * string :=
  match find_split (Ascii.eqb ":") url with
  | Some (String c0 before, rest) =>
      if is_alpha c0 && str_forall in_scheme_chars (String c0 before)
      then (lower (String c0 before), tail rest)
      else (EmptyString, url)
  | _ => (EmptyString, url)
  end.

(** [_splitnetloc(url, 2)] *)
Definition splitnetloc (url : string) : string * string :=
  let rest := tail (tail url) in
  let is_delim c := Ascii.eqb c "/" || Ascii.eqb c "?" || Ascii.eqb c "#" in
  match find_split is_delim rest with
  | Some (domain, rest') => (domain, rest')
  | None => (rest, EmptyString)
  end.

(** [url.split(c, 1)] when [c in url] *)
Definition split_once (c : ascii) (url : string) : string * string :=
  match find_split (Ascii.eqb c) url with
  | Some (a, b) => (a, tail b)
  | None => (url, EmptyString)
  end.

(** [_splitparams] *)
Definition splitparams (url : string) : string * string :=
  match rfind_split (Ascii.eqb "/") url with
  | Some (a, b) =>
      match find_split (Ascii.eqb ";") b with
      | Some (x, y) => (a +:+ x, tail y)
      | None => (url, EmptyString)
      end
  | None => split_once ";" url
  end.

Definition uses_params : list string :=
  [""; "ftp"; "hdl"; "prospero"; "http"; "imap"; "https"; "shttp"; "rtsp";
   "rtspu"; "sip"; "sips"; "mms"; "sftp"; "tel"].

(** A host:port text as a peer is usually written, for instance
    [127.0.0.1:5001]: printable ASCII, no path, parameter, query,
    fragment or bracket character, and a first character that is not a
    letter. *)
Definition hostport_char (c : ascii) : bool :=
  (32 <? code c)%N && (code c <? 128)%N
  && negb (Ascii.eqb c "/" || Ascii.eqb c "?" || Ascii.eqb c "#" || Ascii.eqb c ";"
           || Ascii.eqb c "[" || Ascii.eqb c "]").

Definition plain_hostport (s : string) : bool :=
  match s with
  | EmptyString => false
  | String c0 _ => negb (is_alpha c0) && str_forall hostport_char s
  end.

Section Urlparse.

Context `{L : Library}.

Definition check_netloc_brackets (netloc0 : string) : except unit :=
  let opening := contains "[" netloc0 in
  let closing := contains "]" netloc0 in
  if xorb opening closing then Raise ValueError
  else if opening && closing then check_bracketed_netloc netloc0
  else Return tt.

Definition checknetloc (netloc0 : string) : except unit :=
  if String.eqb netloc0 "" || is_ascii netloc0 then Return tt
  else checknetloc_nfkc netloc0.

(** [urlsplit]: the five components, in the order scheme, netloc, path,
    query, fragment. *)
Definition urlsplit (url : string)
    : except (string * string * string * string * string) :=
  let url := lstrip_c0 url in
  let url := remove_unsafe url in
  let '(scheme0, url) := split_scheme url in
  let! located :=
    (if String.eqb (slice_to url 2) "//" then
       let '(netloc0, rest) := splitnetloc url in
       let! _ := check_netloc_brackets netloc0 in
       Return (netloc0, rest)
     else Return (EmptyString, url)) in
  let '(netloc0, url) := located in
  let '(url, fragment0) :=
    if contains "#" url then split_once "#" url else (url, EmptyString) in
  let '(url, query0) :=
    if contains "?" url then split_once "?" url else (url, EmptyString) in
  let! _ := checknetloc netloc0 in
  Return (scheme0, netloc0, url, query0, fragment0).

Definition urlparse (url : string) : except ParseResult :=
  let! splitresult := urlsplit url in
  let '(scheme0, netloc0, url, query0, fragment0) := splitresult in
  let '(url, params0) :=
    if bool_decide (scheme0 ∈ uses_params) && contains ";" url
    then splitparams url else (url, EmptyString) in
  Return (mkParseResult scheme0 netloc0 url params0 query0 fragment0).

End Urlparse.

End Urllib.

(** ** The module [blockchain.py] *)

Definition MINING_SENDER : string := "The Blockchain".
Definition MINING_REWARD : Z := 1.
Definition MINING_DIFFICULTY : Z := 2.

Section Blockchain.

Context `{L : Library}.

(** The attributes of a [Blockchain] object. *)
Record Blockchain : Type := mkBlockchain {
  transactions : list OrderedDict;
  chain : list Block;
  nodes : gset string;
  node_id : string
}.

Definition set_transactions (txs : list OrderedDict) (self : Blockchain) : Blockchain :=
  mkBlockchain txs (chain self) (nodes self) (node_id self).

Definition set_chain (c : list Block) (self : Blockchain) : Blockchain :=
  mkBlockchain (transactions self) c (nodes self) (node_id self).

Definition set_nodes (n : gset string) (self : Blockchain) : Blockchain :=
  mkBlockchain (transactions self) (chain self) n (node_id self).

(** [len(l)] as a Python integer. *)
Definition len {A : Type} (l : list A) : Z := Z.of_nat (length l).

(** [create_block]: [now] is the value [time()] returns.  The block
    takes the list object of the pool and the pool is rebound to a new
    empty list, so the two never share a list afterwards. *)
Definition create_block (now : float) (nonce0 : Z) (previous_hash0 : string)
    (self : Blockchain) : Block * Blockchain :=
  let block := mkBlock (len (chain self) + 1) now (transactions self)
                       nonce0 previous_hash0 in
  let self := set_transactions [] self in
  let self := set_chain (chain self ++ [block]) self in
  (block, self).

(** [__init__]: [uuid] is [str(uuid4()).replace('-', '')]. *)
Definition init (uuid : string) (now : float) : Blockchain :=
  snd (create_block now 0 "00" (mkBlockchain [] [] ∅ uuid)).

(** [str(d)] of an [OrderedDict] and [str(l)] of a list of them:
    [[d1, d2, ...]] with the [repr] of the items. *)
Definition str_OrderedDict (d : OrderedDict) : string := repr_OrderedDict d.

Fixpoint join_reprs (l : list OrderedDict) : string :=
  match l with
  | [] => ""
  | [d] => repr_OrderedDict d
  | d :: l' => repr_OrderedDict d +:+ ", " +:+ join_reprs l'
  end.

Definition str_list (l : list OrderedDict) : string :=
  "[" +:+ join_reprs l +:+ "]".

(** [verify_transaction_signature]: the key is decoded and imported
    before the [try]; the signature is decoded and verified inside it,
    and the value [verify] returns is dropped. *)
Definition verify_transaction_signature (sender_public_key signature : string)
    (transaction : OrderedDict) : except bool :=
  let! key_bytes := unhexlify sender_public_key in
  let! public_key := RSA_importKey key_bytes in
  let h := SHA_new (str_OrderedDict transaction) in
  match (let! sig := unhexlify signature in PKCS1_v1_5_verify public_key h sig) with
  | Raise e => if isinstance_ValueError e then Return false else Raise e
  | Return _ => Return true
  end.

(** The [OrderedDict] that [submit_transaction] builds. *)
Definition new_transaction (sender_public_key recipient_public_key : string)
    (amount : value) : OrderedDict :=
  [("sender_public_key", VStr sender_public_key);
   ("recipient_public_key", VStr recipient_public_key);
   ("amount", amount)].

(** [submit_transaction] returns [len(self.chain) + 1] or [False]. *)
Definition submit_transaction (sender_public_key recipient_public_key signature : string)
    (amount : value) (self : Blockchain) : except value * Blockchain :=
  let transaction := new_transaction sender_public_key recipient_public_key amount in
  if String.eqb sender_public_key MINING_SENDER then
    (Return (VInt (len (chain self) + 1)),
     set_transactions (transactions self ++ [transaction]) self)
  else
    match verify_transaction_signature sender_public_key signature transaction with
    | Raise e => (Raise e, self)
    | Return signature_verification =>
        if signature_verification then
          (Return (VInt (len (chain self) + 1)),
           set_transactions (transactions self ++ [transaction]) self)
        else (Return (VBool false), self)
    end.

(** [valid_proof] *)
Definition valid_proof (txs : list OrderedDict) (last_hash : string) (nonce0 : Z)
    (difficulty : Z) : bool :=
  let guess := str_list txs +:+ last_hash +:+ str_int nonce0 in
  let guess_hash := sha256_hexdigest guess in
  String.eqb (slice_to guess_hash difficulty) (str_mul "0" difficulty).

(** [hash] *)
Definition hash (block : Block) : string :=
  sha256_hexdigest (json_dumps block).

(** The loop of [proof_of_work], from the current value of [nonce]:
    [None] when [fuel] tests did not reach a valid nonce.  The source
    calls [valid_proof] with its default difficulty; the loop is written
    for any difficulty and [proof_of_work] fixes it. *)
Fixpoint proof_of_work_loop (difficulty : Z) (txs : list OrderedDict)
    (last_hash : string) (fuel : nat) (nonce0 : Z) : option Z :=
  match fuel with
  | O => None
  | S fuel' =>
      if valid_proof txs last_hash nonce0 difficulty then Some nonce0
      else proof_of_work_loop difficulty txs last_hash fuel' (nonce0 + 1)
  end.

Definition proof_of_work (fuel : nat) (self : Blockchain) : option (except Z) :=
  match last_item (chain self) with
  | Raise e => Some (Raise e)
  | Return last_block =>
      let last_hash := hash last_block in
      Return <$> proof_of_work_loop MINING_DIFFICULTY (transactions self) last_hash fuel 0
  end.


(** [valid_chain]: the keys read from each transaction, in order. *)
Definition transaction_elements : list string :=
  ["sender_public_key"; "recipient_public_key"; "amount"].

(** [OrderedDict((k, transaction[k]) for k in transaction_elements)] *)
Definition rebuild_transaction (transaction : OrderedDict) : except OrderedDict :=
  map_except (λ k, let! v := getitem transaction k in Return (k, v)) transaction_elements.

(** The [while] loop of [valid_chain]: [rest] is
    [given_chain[current_index:]]. *)
Fixpoint valid_chain_loop (last_block : Block) (rest : list Block) : except bool :=
  match rest with
  | [] => Return true
  | block :: rest' =>
      if negb (String.eqb (previous_hash block) (hash last_block)) then Return false
      else
        let txs := drop_last (block_transactions block) in
        let! txs := map_except rebuild_transaction txs in
        if negb (valid_proof txs (previous_hash block) (nonce block) MINING_DIFFICULTY)
        then Return false
        else valid_chain_loop block rest'
  end.

(** [valid_chain]: [given_chain[0]] raises [IndexError] on an empty
    list. *)
Definition valid_chain (given_chain : list Block) : except bool :=
  match given_chain with
  | [] => Raise IndexError
  | last_block :: rest => valid_chain_loop last_block rest
  end.

(** What [requests.get] returns for [/chain]: the status code and the
    two entries of the JSON body that [resolve_conflicts] reads. *)
Record Response : Type := mkResponse {
  status_code : Z;
  resp_length : Z;
  resp_chain : list Block
}.

(** The variable [max_length] of [resolve_conflicts] holds an integer
    at first and a chain once one has been adopted. *)
Inductive max_length_value : Type :=
| MaxInt (n : Z)
| MaxChain (c : list Block).

(** [external_length > max_length]: an [int] and a [list] do not
    compare. *)
Definition gt_max (external_length : Z) (max_length : max_length_value) : except bool :=
  match max_length with
  | MaxInt n => Return (n <? external_length)%Z
  | MaxChain _ => Raise TypeError
  end.

(** [f'http://{node}/chain'] *)
Definition chain_url (node : string) : string := "http://" +:+ node +:+ "/chain".

(** The [for] loop of [resolve_conflicts] over the peers in iteration
    order.  [requests_get url] is the outcome of [requests.get(url)]: a
    response, or the exception of the transport. *)
Fixpoint resolve_loop (requests_get : string → except Response)
    (neighbours : list string) (max_length : max_length_value)
    (new_chain : option (list Block)) : except (option (list Block)) :=
  match neighbours with
  | [] => Return new_chain
  | node :: neighbours' =>
      let! response := requests_get (chain_url node) in
      if (status_code response =? 200)%Z then
        let external_length := resp_length response in
        let external_chain := resp_chain response in
        let! longer := gt_max external_length max_length in
        let! adopt := (if longer then valid_chain external_chain else Return false) in
        if adopt then
          resolve_loop requests_get neighbours' (MaxChain external_chain)
                       (Some external_chain)
        else resolve_loop requests_get neighbours' max_length new_chain
      else resolve_loop requests_get neighbours' max_length new_chain
  end.

(** [if new_chain:] holds for a list that is not empty. *)
Definition chain_truthy (new_chain : option (list Block)) : bool :=
  match new_chain with
  | Some (_ :: _) => true
  | _ => false
  end.

(** [resolve_conflicts], the peers being visited in the order
    [neighbours] (an order of [self.nodes]). *)
Definition resolve_conflicts_in (requests_get : string → except Response)
    (neighbours : list string) (self : Blockchain) : except bool * Blockchain :=
  match resolve_loop requests_get neighbours (MaxInt (len (chain self))) None with
  | Raise e => (Raise e, self)
  | Return new_chain =>
      if chain_truthy new_chain
      then (Return true, set_chain (default [] new_chain) self)
      else (Return false, self)
  end.

Definition resolve_conflicts (requests_get : string → except Response)
    (self : Blockchain) : except bool * Blockchain :=
  resolve_conflicts_in requests_get (elements (nodes self)) self.

(** The route [/mine]: the new block and the new state, [None] when
    the search for a nonce used up the fuel. *)
Definition mine (fuel : nat) (now : float) (self : Blockchain)
    : option (except Block * Blockchain) :=
  match proof_of_work fuel self with
  | None => None
  | Some (Raise e) => Some (Raise e, self)
  | Some (Return nonce0) =>
      let self := snd (submit_transaction MINING_SENDER (node_id self) ""
                                          (VInt MINING_REWARD) self) in
      match last_item (chain self) with
      | Raise e => Some (Raise e, self)
      | Return last_block =>
          let previous_hash0 := hash last_block in
          let '(block, self) := create_block now nonce0 previous_hash0 self in
          Some (Return block, self)
      end
  end.

(** [register_node]: [if s:] on a string holds when it is not empty. *)
Definition register_node (node_url : string) (self : Blockchain)
    : except unit * Blockchain :=
  match Urllib.urlparse node_url with
  | Raise e => (Raise e, self)
  | Return parsed_url =>
      if negb (String.eqb (Urllib.netloc parsed_url) "") then
        (Return tt, set_nodes (nodes self ∪ {[ Urllib.netloc parsed_url ]}) self)
      else if negb (String.eqb (Urllib.path parsed_url) "") then
        (Return tt, set_nodes (nodes self ∪ {[ Urllib.path parsed_url ]}) self)
      else (Raise ValueError, self)
  end.

(** The states a node reaches when its chain is built by the local
    flow only: start-up, then any sequence of submissions, peer
    registrations and successful [/mine] requests (the chain is never
    replaced by [resolve_conflicts]). *)
Inductive local_run : Blockchain → Prop :=
| run_init (uuid : string) (now : float) :
    local_run (init uuid now)
| run_submit (self : Blockchain) (sender recipient signature : string) (amount : value) :
    local_run self →
    local_run (snd (submit_transaction sender recipient signature amount self))
| run_register (self : Blockchain) (node_url : string) :
    local_run self →
    local_run (snd (register_node node_url self))
| run_mine (self self' : Blockchain) (fuel : nat) (now : float) (block : Block) :
    local_run self →
    mine fuel now self = Some (Return block, self') →
    local_run self'.

End Blockchain.

(** ** A small instance of the libraries

    The theorems below hold for every [Library].  To run the
    definitions on concrete inputs we also fix a toy one: the digest of
    a string depends on the sum of its character codes, a key is any
    non-empty byte string and a signature verifies when it repeats the
    key.  As in [Crypto.Signature.PKCS1_v1_5], [verify] reports its
    result by the boolean it returns. *)

Module Demo.

Fixpoint char_sum (s : string) : Z :=
  match s with
  | EmptyString => 0
  | String c s' => Z.of_N (N_of_ascii c) + char_sum s'
  end.

Definition hexdigest (s : string) : string :=
  let n := (char_sum s mod 251)%Z in
  if (n mod 5 =? 0)%Z then "00" +:+ str_int n else "a" +:+ str_int n.

Definition repr_value (v : value) : string :=
  match v with
  | VStr s => "'" +:+ s +:+ "'"
  | VInt n => str_int n
  | VBool b => if b then "True" else "False"
  end.

Fixpoint repr_items (d : OrderedDict) : string :=
  match d with
  | [] => ""
  | (k, v) :: d' => "('" +:+ k +:+ "', " +:+ repr_value v +:+ ")" +:+ repr_items d'
  end.

Definition dumps (b : Block_ Z) : string :=
  str_int (block_number b) +:+ "|" +:+ str_int (timestamp b) +:+ "|"
  +:+ String.concat "," (map repr_items (block_transactions b)) +:+ "|"
  +:+ str_int (nonce b) +:+ "|" +:+ previous_hash b.

Definition importKey (bs : list Byte.byte) : except (list Byte.byte) :=
  match bs with
  | [] => Raise ValueError
  | _ => Return bs
  end.

Definition verify (key : list Byte.byte) (h : string) (sig : list Byte.byte) : except bool :=
  Return (bool_decide (Byte.to_N <$> sig = Byte.to_N <$> key)).

#[export] Instance library : Library := {|
  float := Z;
  sha256_hexdigest := hexdigest;
  json_dumps := dumps;
  repr_OrderedDict := λ d, "OrderedDict([" +:+ repr_items d +:+ "])";
  RsaKey := list Byte.byte;
  SHA1Hash := string;
  RSA_importKey := importKey;
  SHA_new := λ s, s;
  PKCS1_v1_5_verify := verify;
  check_bracketed_netloc := λ _, Return tt;
  checknetloc_nfkc := λ _, Return tt
|}.

(** A node right after start-up. *)
Definition node0 : Blockchain := init "5f3a" 1000%Z.

(** The outcome of [/mine], with the state unchanged when the request
    did not produce a block. *)
Definition mined (fuel : nat) (now : Z) (self : Blockchain) : Blockchain :=
  match mine fuel now self with
  | Some (_, self') => self'
  | None => self
  end.

(** The node after one empty block, and after a transfer and a second
    block. *)
Definition node1 : Blockchain := mined 100 1001%Z node0.

Definition node2 : Blockchain :=
  mined 100 1002%Z (snd (submit_transaction "ab" "cd" "ab" (VStr "5") node1)).

(** Networks.  In the first every peer serves the chain of [node2];
    in the second the peer on port 5002 is down; in the third it
    answers 404. *)
Definition peer_response : Response := mkResponse 200 3 (chain node2).

Definition get_all_up (url : string) : except Response := Return peer_response.

Definition get_one_down (url : string) : except Response :=
  if String.eqb url (chain_url "127.0.0.1:5002") then Raise ConnectionError
  else Return peer_response.

Definition get_one_404 (url : string) : except Response :=
  if String.eqb url (chain_url "127.0.0.1:5002") then Return (mkResponse 404 0 [])
  else Return peer_response.

(** The node at start-up with one and with two registered peers. *)
Definition node0_one_peer : Blockchain :=
  snd (register_node "http://127.0.0.1:5003" node0).

Definition node0_two_peers : Blockchain :=
  snd (register_node "127.0.0.1:5002" node0_one_peer).

(** Two first blocks that differ in their timestamp and have the same
    toy digest, and a second block. *)
Definition genesis12 : Block := mkBlock 1 12%Z [] 0 "00".
Definition genesis21 : Block := mkBlock 1 21%Z [] 0 "00".
Definition second_block : Block := mkBlock 2 30%Z [] 1 (hash genesis12).

End Demo.

(** ** The routes of the module

    A handler is a function of the form sent with the request and of
    the fields of the global [blockchain] object.  It returns the pair
    that the route returns (a body and a status), or the exception that
    leaves it, and the new fields.  The bodies given to [jsonify] are
    kept as the Python dictionaries they are built from. *)

(** [jsonify] writes every dictionary with its keys in sorted order
    (the default of Flask, which the module does not change) and
    [response.json()] builds the dictionaries in the order it reads
    them.  Strings, integers and floats come back as they were sent.
    So a transaction arrives with its keys sorted, and a block with the
    same fields and such transactions. *)
Fixpoint insert_item (item : string * value) (d : OrderedDict) : OrderedDict :=
  match d with
  | [] => [item]
  | item' :: d' =>
      if String.leb (fst item) (fst item') then item :: item' :: d'
      else item' :: insert_item item d'
  end.

Definition sort_keys (d : OrderedDict) : OrderedDict := foldr insert_item [] d.

Definition wire_block {float : Type} (block : Block_ float) : Block_ float :=
  mkBlock (block_number block) (timestamp block)
          (sort_keys <$> block_transactions block)
          (nonce block) (previous_hash block).

Section Routes.

Context `{L : Library}.

(** The route [/chain]: the status, and the body of [jsonify] as
    [requests.get(...).json()] yields it on the side of the caller. *)
Definition chain_route (self : Blockchain) : Response :=
  mkResponse 200 (len (chain self)) (wire_block <$> chain self).

(** [request.form]: the fields in the order they were sent.  [k in
    form], [form[k]] and [form.get(k)] look at the first field named
    [k]. *)
Definition Form : Type := list (string * string).

Fixpoint form_get (form : Form) (k : string) : option string :=
  match form with
  | [] => None
  | (k', v) :: form' => if String.eqb k' k then Some v else form_get form' k
  end.

Definition form_contains (form : Form) (k : string) : bool :=
  match form_get form k with
  | Some _ => true
  | None => false
  end.

(** [form[k]] raises a [KeyError] (of werkzeug) on a missing field. *)
Definition form_item (form : Form) (k : string) : except string :=
  match form_get form k with
  | Some v => Return v
  | None => Raise KeyError
  end.

(** The bodies the handlers below return: a plain text, or a dictionary
    with a message and, for [/nodes/register], the list of peers. *)
Inductive body : Type :=
| Plain (text : string)
| Message (message : string)
| NodesAdded (message : string) (total_nodes : list string).

Record reply : Type := mkReply {
  reply_body : body;
  reply_status : Z
}.

(** What leaves a handler without a reply: an exception of the classes
    of [Py.exn], or the [AttributeError] of a method called on
    [None]. *)
Inductive raised : Type :=
| Exn (e : exn)
| AttributeError.

Inductive handled : Type :=
| Replied (r : reply)
| Unhandled (r : raised).

(** [f'{v}'] *)
Definition format_value (v : value) : string :=
  match v with
  | VStr s => s
  | VInt n => str_int n
  | VBool b => if b then "True" else "False"
  end.

(** The route [/transaction/new]; the [print] of the form is left out. *)
Definition required : list string :=
  ["confirmation_sender_public_key"; "confirmation_recipient_public_key";
   "transaction_signature"; "confirmation_amount"].

Definition transaction_new (form : Form) (self : Blockchain) : handled * Blockchain :=
  if negb (forallb (form_contains form) required) then
    (Replied (mkReply (Plain "Missing values") 400), self)
  else
    match (let! sender := form_item form "confirmation_sender_public_key" in
           let! recipient := form_item form "confirmation_recipient_public_key" in
           let! signature := form_item form "transaction_signature" in
           let! amount := form_item form "confirmation_amount" in
           Return (sender, recipient, signature, amount)) with
    | Raise e => (Unhandled (Exn e), self)
    | Return (sender, recipient, signature, amount) =>
        match submit_transaction sender recipient signature (VStr amount) self with
        | (Raise e, self') => (Unhandled (Exn e), self')
        | (Return transaction_results, self') =>
            if truthy transaction_results then
              (Replied (mkReply
                          (Message ("Transaction will be added to the Block "
                                    +:+ format_value transaction_results)) 201),
               self')
            else
              (Replied (mkReply (Message "Invalid transaction/signature") 406), self')
        end
    end.

(** [text.split(',')] *)
Fixpoint split_comma (text : string) : list string :=
  match text with
  | EmptyString => [EmptyString]
  | String c text' =>
      match split_comma text' with
      | segment :: segments =>
          if Ascii.eqb c "," then EmptyString :: segment :: segments
          else String c segment :: segments
      | [] => [String c EmptyString]
      end
  end.

(** The loop [for node in nodes: blockchain.register_node(node)]: the
    first exception ends it and the peers added before stay. *)
Fixpoint register_all (urls : list string) (self : Blockchain) : except unit * Blockchain :=
  match urls with
  | [] => (Return tt, self)
  | node :: urls' =>
      match register_node node self with
      | (Raise e, self') => (Raise e, self')
      | (Return _, self') => register_all urls' self'
      end
  end.

(** The route [/nodes/register].  [strip] is [str.strip] (its set of
    white space is that of Unicode).  The list built by the
    comprehension is never [None], so the test [if nodes is None] that
    follows it in the source selects nothing; a form without the field
    [nodes] makes [values.get('nodes')] return [None], and [.split]
    raises [AttributeError]. *)
Definition nodes_register (strip : string → string) (form : Form) (self : Blockchain)
    : handled * Blockchain :=
  match form_get form "nodes" with
  | None => (Unhandled AttributeError, self)
  | Some text =>
      let nodes0 := strip <$> split_comma text in
      match register_all nodes0 self with
      | (Raise e, self') => (Unhandled (Exn e), self')
      | (Return _, self') =>
          (Replied (mkReply (NodesAdded "Nodes have been added" (elements (nodes self')))
                            200),
           self')
      end
  end.

End Routes.

(** Inputs for the routes on the toy instance. *)

Module DemoRoutes.

Import Demo.

(** A form of [/transaction/new] that claims the reward sender. *)
Definition reward_form : Form :=
  [("confirmation_sender_public_key", MINING_SENDER);
   ("confirmation_recipient_public_key", "cafe");
   ("transaction_signature", "");
   ("confirmation_amount", "1000")].

(** A form with a key, a signature that does not match it and no
    amount. *)
Definition short_form : Form :=
  [("confirmation_sender_public_key", "ab");
   ("confirmation_recipient_public_key", "cd");
   ("transaction_signature", "cd")].

(** The toy [strip] removes the leading blanks. *)
Definition strip (s : string) : string := Urllib.lstrip_c0 s.

(** The last block of [node2] with the reward redirected. *)
Definition forged_block : Block :=
  mkBlock 7 0%Z
    [new_transaction "ab" "cd" (VStr "5");
     new_transaction MINING_SENDER "cafe" (VInt 1000000)]
    2 "00130".

(** A block whose first transaction has no amount. *)
Definition block_without_amount : Block :=
  mkBlock 2 30%Z
    [[("sender_public_key", VStr "ab"); ("recipient_public_key", VStr "cd")];
     new_transaction MINING_SENDER "5f3a" (VInt 1)]
    1 "a129".

(** A block that does not name the hash of the block before it. *)
Definition unlinked_block : Block := mkBlock 3 30%Z [] 1 "beef".

(** The three blocks of [node2]. *)
Definition node2_first : Block := mkBlock 1 1000%Z [] 0 "00".

Definition node2_second : Block :=
  mkBlock 2 1001%Z [new_transaction MINING_SENDER "5f3a" (VInt 1)] 1 "a129".

Definition node2_third : Block :=
  mkBlock 3 1002%Z
    [new_transaction "ab" "cd" (VStr "5");
     new_transaction MINING_SENDER "5f3a" (VInt 1)]
    2 "00130".

(** Networks: a peer that reports four blocks and sends one; a peer on
    port 5002 that answers 404 and others that report nine blocks and
    send none. *)
Definition get_inflated (url : string) : except Response :=
  Return (mkResponse 200 4 [genesis21]).

Definition get_empty (url : string) : except Response :=
  if String.eqb url (chain_url "127.0.0.1:5002") then Return (mkResponse 404 0 [])
  else Return (mkResponse 200 9 []).

(** A toy library whose [json_dumps] writes the keys of every
    transaction in sorted order, as [json.dumps(..., sort_keys=True)]
    does; a node and a peer that run on it, the peer with two mined
    blocks. *)
Definition sorted_library : Library := {|
  float := Z;
  sha256_hexdigest := hexdigest;
  json_dumps := λ b, dumps (wire_block b);
  repr_OrderedDict := λ d, "OrderedDict([" +:+ repr_items d +:+ "])";
  RsaKey := list Byte.byte;
  SHA1Hash := string;
  RSA_importKey := importKey;
  SHA_new := λ s, s;
  PKCS1_v1_5_verify := verify;
  check_bracketed_netloc := λ _, Return tt;
  checknetloc_nfkc := λ _, Return tt
|}.

Definition mined_sorted (fuel : nat) (now : Z) (self : @Blockchain sorted_library)
    : @Blockchain sorted_library :=
  match @mine sorted_library fuel now self with
  | Some (_, self') => self'
  | None => self
  end.

Definition local0 : @Blockchain sorted_library := @init sorted_library "5f3a" 1000%Z.

Definition peer0 : @Blockchain sorted_library := @init sorted_library "77aa" 2000%Z.

Definition peer1 : @Blockchain sorted_library := mined_sorted 200 2001%Z peer0.

Definition peer2 : @Blockchain sorted_library :=
  mined_sorted 200 2002%Z
    (snd (@submit_transaction sorted_library "ab" "cd" "ab" (VStr "5") peer1)).

Definition get_honest (url : string) : except (@Response sorted_library) :=
  Return (@chain_route sorted_library peer2).

(** A form whose signature is not hexadecimal text. *)
Definition bad_signature_form : Form :=
  [("confirmation_sender_public_key", "ab");
   ("confirmation_recipient_public_key", "cd");
   ("transaction_signature", "zz");
   ("confirmation_amount", "5")].

(** Forms of [/nodes/register]: two addresses, and two addresses around
    an empty one. *)
Definition two_nodes_form : Form := [("nodes", "127.0.0.1:5002, 127.0.0.1:5003")].

Definition gap_form : Form := [("nodes", "127.0.0.1:5002,,127.0.0.1:5003")].

(** Libraries whose digest has two characters. *)
Definition short_digest_library : Library := {|
  float := Z;
  sha256_hexdigest := λ _, "0f";
  json_dumps := dumps;
  repr_OrderedDict := λ d, repr_items d;
  RsaKey := list Byte.byte;
  SHA1Hash := string;
  RSA_importKey := importKey;
  SHA_new := λ s, s;
  PKCS1_v1_5_verify := verify;
  check_bracketed_netloc := λ _, Return tt;
  checknetloc_nfkc := λ _, Return tt
|}.

End DemoRoutes.

(** * Properties *)

Example str_int_examples :
  str_int 0 = "0"%string ∧ str_int 42 = "42"%string ∧ str_int (-17) = "-17"%string.
Proof. repeat split; reflexivity. Qed.

Example slice_to_examples :
  slice_to "00ab" 2 = "00"%string ∧ slice_to "0" 2 = "0"%string
  ∧ slice_to "00ab" (-1) = "00a"%string ∧ slice_to "00ab" (-9) = ""%string.
Proof. repeat split; reflexivity. Qed.

Example unhexlify_examples :
  unhexlify "0aFf" = Return [Byte.x0a; Byte.xff]
  ∧ unhexlify "zz" = Raise binascii_Error
  ∧ unhexlify "abc" = Raise binascii_Error
  ∧ unhexlify "" = Return [].
Proof. repeat split; reflexivity. Qed.

Section Properties.

Context `{L : Library}.

Implicit Types (self : Blockchain) (block : Block) (txs : list OrderedDict).

(** ** Python helpers *)

Lemma map_except_fixed {A : Type} (f : A → except A) (l : list A) :
  Forall (λ x, f x = Return x) l → map_except f l = Return l.
Proof.
  induction 1 as [|x l Hx _ IH]; simpl; [done|].
  by rewrite Hx, IH.
Qed.

Lemma drop_last_snoc {A : Type} (l : list A) (x : A) : drop_last (l ++ [x]) = l.
Proof. unfold drop_last. apply removelast_last. Qed.

Lemma last_item_snoc {A : Type} (l : list A) (x : A) : last_item (l ++ [x]) = Return x.
Proof. unfold last_item. by rewrite last_snoc. Qed.

Lemma last_item_Return {A : Type} (l : list A) (x : A) :
  last_item l = Return x → last l = Some x.
Proof. unfold last_item. destruct (last l); congruence. Qed.

(** A transaction built by [submit_transaction] has the three keys, so
    [valid_chain] rebuilds it as it is. *)
Lemma rebuild_new_transaction sender recipient amount :
  rebuild_transaction (new_transaction sender recipient amount)
  = Return (new_transaction sender recipient amount).
Proof. reflexivity. Qed.

(** ** [create_block] *)

(** C8: [create_block] appends one block; the block holds the pending
    pool as it was at the call, the next block number and the given
    nonce and previous hash; afterwards the pool is empty and the
    blocks appended before are the same, at the same positions. *)
Theorem create_block_appends (now : float) (nonce0 : Z) (previous_hash0 : string) self :
  let block := fst (create_block now nonce0 previous_hash0 self) in
  let self' := snd (create_block now nonce0 previous_hash0 self) in
  chain self' = chain self ++ [block]
  ∧ block_transactions block = transactions self
  ∧ block_number block = (len (chain self) + 1)%Z
  ∧ nonce block = nonce0
  ∧ previous_hash block = previous_hash0
  ∧ timestamp block = now
  ∧ transactions self' = []
  ∧ take (length (chain self)) (chain self') = chain self
  ∧ length (chain self') = S (length (chain self))
  ∧ nodes self' = nodes self ∧ node_id self' = node_id self.
Proof.
  intros block self'. subst block self'. unfold create_block. simpl.
  repeat split.
  - by rewrite take_app_length.
  - rewrite length_app. simpl. lia.
Qed.

(** ** [valid_chain] *)

(** C10: a candidate chain of one block is valid whatever the block
    holds; the first block of a longer candidate is read only through
    its hash, the anchor of the second block. *)
Theorem valid_chain_single_block block :
  valid_chain [block] = Return true
  ∧ ∀ block' rest,
      hash block' = hash block →
      valid_chain (block' :: rest) = valid_chain (block :: rest).
Proof.
  split; [reflexivity|].
  intros block' [|b rest] Hhash; simpl; [reflexivity|].
  by rewrite Hhash.
Qed.

(** One more block at the end of a valid candidate: the checks of
    [valid_chain] on it. *)
Lemma valid_chain_loop_snoc (b0 : Block) (rest : list Block) (lastb blk : Block) txs :
  valid_chain_loop b0 rest = Return true →
  last (b0 :: rest) = Some lastb →
  previous_hash blk = hash lastb →
  map_except rebuild_transaction (drop_last (block_transactions blk)) = Return txs →
  valid_proof txs (previous_hash blk) (nonce blk) MINING_DIFFICULTY = true →
  valid_chain_loop b0 (rest ++ [blk]) = Return true.
Proof.
  revert b0. induction rest as [|b1 rest IH]; intros b0 Hok Hlast Hprev Htxs Hproof.
  - simpl in Hlast. injection Hlast as ->. simpl.
    rewrite Hprev, String.eqb_refl. simpl.
    rewrite Hprev in Hproof. rewrite Htxs. simpl. by rewrite Hproof.
  - simpl in Hok |- *.
    destruct (negb (String.eqb (previous_hash b1) (hash b0))); [done|].
    destruct (map_except rebuild_transaction (drop_last (block_transactions b1)))
      as [txs1|e]; simpl in Hok |- *; [|done].
    destruct (negb (valid_proof txs1 (previous_hash b1) (nonce b1) MINING_DIFFICULTY));
      [done|].
    apply IH; try done.
Qed.

(** ** [proof_of_work] *)

Lemma proof_of_work_loop_sound (d : Z) txs (h : string) (fuel : nat) (n0 n : Z) :
  proof_of_work_loop d txs h fuel n0 = Some n →
  (n0 ≤ n)%Z ∧ valid_proof txs h n d = true
  ∧ ∀ n', (n0 ≤ n' < n)%Z → valid_proof txs h n' d = false.
Proof.
  revert n0. induction fuel as [|fuel IH]; intros n0; simpl; [done|].
  destruct (valid_proof txs h n0 d) eqn:Hv.
  - intros [= <-]. split; [lia|]. split; [done|]. intros; lia.
  - intros Hloop. destruct (IH _ Hloop) as (Hle & Hn & Hmin).
    split; [lia|]. split; [done|]. intros n' Hn'.
    destruct (decide (n' = n0)) as [->|]; [done|]. apply Hmin. lia.
Qed.

Lemma proof_of_work_loop_complete (d : Z) txs (h : string) (fuel : nat) (n0 m : Z) :
  (n0 ≤ m)%Z → valid_proof txs h m d = true → (Z.to_nat (m - n0) < fuel)%nat →
  ∃ n, proof_of_work_loop d txs h fuel n0 = Some n.
Proof.
  revert n0. induction fuel as [|fuel IH]; intros n0 Hle Hm Hfuel; [lia|]. simpl.
  destruct (valid_proof txs h n0 d) eqn:Hv; [eauto|].
  apply IH; [ | done | ].
  - destruct (decide (m = n0)); [congruence | lia].
  - destruct (decide (m = n0)); [congruence | lia].
Qed.


(** The method: a nonce it returns is valid for the pool and the hash
    of the last block, at the difficulty of the module. *)
Lemma proof_of_work_returns (fuel : nat) self (n : Z) :
  proof_of_work fuel self = Some (Return n) →
  ∃ last_block,
    last (chain self) = Some last_block
    ∧ valid_proof (transactions self) (hash last_block) n MINING_DIFFICULTY = true.
Proof.
  unfold proof_of_work, last_item.
  destruct (last (chain self)) as [last_block|]; [|done].
  destruct (proof_of_work_loop _ _ _ _ _) as [n'|] eqn:Hloop; [|done].
  intros [= <-]. exists last_block. split; [done|].
  by destruct (proof_of_work_loop_sound _ _ _ _ _ _ Hloop) as (_ & ? & _).
Qed.

(** ** [submit_transaction] *)

(** What a submission can do to the state: nothing, or one more
    transaction at the end of the pool. *)
Lemma submit_transaction_state (sender recipient signature : string) (amount : value) self :
  let self' := snd (submit_transaction sender recipient signature amount self) in
  self' = self
  ∨ self' = set_transactions
              (transactions self ++ [new_transaction sender recipient amount]) self.
Proof.
  unfold submit_transaction. simpl.
  destruct (String.eqb sender MINING_SENDER); [by right|].
  destruct (verify_transaction_signature _ _ _) as [[|]|e]; simpl; auto.
Qed.

(** The branch of the other senders, when the verifier returns [True]. *)
Lemma submit_transaction_verified
    (sender recipient signature : string) (amount : value) self :
  sender ≠ MINING_SENDER →
  verify_transaction_signature sender signature (new_transaction sender recipient amount)
  = Return true →
  submit_transaction sender recipient signature amount self
  = (Return (VInt (len (chain self) + 1)),
     set_transactions (transactions self ++ [new_transaction sender recipient amount]) self).
Proof.
  intros Hsender Hverify. apply String.eqb_neq in Hsender.
  unfold submit_transaction. by rewrite Hsender, Hverify.
Qed.

(** C6: a submission whose sender is the reward sentinel is appended to
    the pool and answered with the chain length plus one, whatever the
    libraries would say of its key and signature; for any other sender
    the transaction is appended exactly when
    [verify_transaction_signature] returns [True], and otherwise the
    state is unchanged. *)
Theorem submit_transaction_reward_bypass
    (sender recipient signature : string) (amount : value) self :
  let transaction := new_transaction sender recipient amount in
  let accepted :=
    (Return (VInt (len (chain self) + 1)),
     set_transactions (transactions self ++ [transaction]) self) in
  (sender = MINING_SENDER →
     submit_transaction sender recipient signature amount self = accepted)
  ∧ (sender ≠ MINING_SENDER →
     (verify_transaction_signature sender signature transaction = Return true →
        submit_transaction sender recipient signature amount self = accepted)
     ∧ (verify_transaction_signature sender signature transaction ≠ Return true →
        snd (submit_transaction sender recipient signature amount self) = self)).
Proof.
  intros transaction accepted. subst accepted. unfold submit_transaction.
  fold transaction. split.
  - intros ->. reflexivity.
  - intros Hsender. apply String.eqb_neq in Hsender. rewrite Hsender. split.
    + intros ->. reflexivity.
    + destruct (verify_transaction_signature _ _ _) as [[|]|e]; simpl; congruence.
Qed.

(** When the verifier returns [False] the submission is answered with
    [False], which is no block number, and nothing changes. *)
Lemma submit_transaction_rejected (sender recipient signature : string) (amount : value) self :
  sender ≠ MINING_SENDER →
  verify_transaction_signature sender signature (new_transaction sender recipient amount)
  = Return false →
  submit_transaction sender recipient signature amount self = (Return (VBool false), self)
  ∧ truthy (VBool false) = false
  ∧ truthy (VInt (len (chain self) + 1)) = true
  ∧ Py.eq (VBool false) (VInt (len (chain self) + 1)) = false.
Proof.
  intros Hsender Hverify. apply String.eqb_neq in Hsender.
  unfold submit_transaction. rewrite Hsender, Hverify. unfold len. simpl.
  repeat split.
  - apply negb_true_iff, Z.eqb_neq. lia.
  - apply Z.eqb_neq. lia.
Qed.

(** ** [verify_transaction_signature] *)

(** The result when the key is decoded and imported and the signature
    is decoded: decided by the outcome of the library's [verify] alone,
    and [True] for either boolean it returns. *)
Lemma verify_transaction_signature_decoded
    (sender_public_key signature : string) (transaction : OrderedDict)
    (key_bytes sig : list Byte.byte) (public_key : RsaKey) :
  unhexlify sender_public_key = Return key_bytes →
  RSA_importKey key_bytes = Return public_key →
  unhexlify signature = Return sig →
  verify_transaction_signature sender_public_key signature transaction
  = match PKCS1_v1_5_verify public_key (SHA_new (str_OrderedDict transaction)) sig with
    | Return _ => Return true
    | Raise e => if isinstance_ValueError e then Return false else Raise e
    end.
Proof.
  intros Hkey Himport Hsig. unfold verify_transaction_signature.
  rewrite Hkey. simpl. rewrite Himport. simpl. rewrite Hsig. reflexivity.
Qed.

(** A signature that is not hexadecimal text is answered with [False]
    (the decoding is inside the [try]). *)
Lemma verify_transaction_signature_bad_signature
    (sender_public_key signature : string) (transaction : OrderedDict)
    (key_bytes : list Byte.byte) (public_key : RsaKey) (e : exn) :
  unhexlify sender_public_key = Return key_bytes →
  RSA_importKey key_bytes = Return public_key →
  unhexlify signature = Raise e →
  verify_transaction_signature sender_public_key signature transaction = Return false.
Proof.
  intros Hkey Himport Hsig. unfold verify_transaction_signature.
  rewrite Hkey. simpl. rewrite Himport. simpl. rewrite Hsig. simpl.
  unfold unhexlify in Hsig.
  destruct (negb (is_ascii signature)); [by injection Hsig as <-|].
  destruct (unhexlify_pairs signature); [done|]. by injection Hsig as <-.
Qed.

(** A key that does not decode or does not import: the exception is
    raised before the [try] and leaves the function. *)
Lemma verify_transaction_signature_bad_key
    (sender_public_key signature : string) (transaction : OrderedDict) (e : exn) :
  (unhexlify sender_public_key = Raise e
   ∨ ∃ key_bytes, unhexlify sender_public_key = Return key_bytes
                  ∧ RSA_importKey key_bytes = Raise e) →
  verify_transaction_signature sender_public_key signature transaction = Raise e.
Proof.
  unfold verify_transaction_signature.
  intros [Hkey | (key_bytes & Hkey & Himport)]; rewrite Hkey; simpl; [done|].
  by rewrite Himport.
Qed.

(** C4, at the input where it fails: the sender key [zz] is not
    hexadecimal text; [unhexlify] raises [binascii.Error] outside the
    [try], the call raises instead of returning [False], and
    [submit_transaction] passes the exception on to its caller. *)
Theorem verify_transaction_signature_raises
    (recipient signature : string) (amount : value) (transaction : OrderedDict) self :
  verify_transaction_signature "zz" signature transaction = Raise binascii_Error
  ∧ submit_transaction "zz" recipient signature amount self = (Raise binascii_Error, self).
Proof.
  assert (∀ t, verify_transaction_signature "zz" signature t = Raise binascii_Error)
    as Hverify.
  { intros t. apply verify_transaction_signature_bad_key. by left. }
  split; [apply Hverify|].
  unfold submit_transaction.
  change (String.eqb "zz" MINING_SENDER) with false. cbv iota.
  by rewrite Hverify.
Qed.

(** C7, at the inputs where it fails: the key and the signature decode
    and the library's [verify] reports a signature that does not match
    by returning [False].  The code drops that value: the verifier
    answers [True], the transaction is appended to the pool and the
    caller gets a block number. *)
Theorem submit_transaction_accepts_unverified
    (sender recipient signature : string) (amount : value) self
    (key_bytes sig : list Byte.byte) (public_key : RsaKey) :
  sender ≠ MINING_SENDER →
  unhexlify sender = Return key_bytes →
  RSA_importKey key_bytes = Return public_key →
  unhexlify signature = Return sig →
  PKCS1_v1_5_verify public_key
    (SHA_new (str_OrderedDict (new_transaction sender recipient amount))) sig
  = Return false →
  submit_transaction sender recipient signature amount self
  = (Return (VInt (len (chain self) + 1)),
     set_transactions (transactions self ++ [new_transaction sender recipient amount]) self).
Proof.
  intros Hsender Hkey Himport Hsig Hverify.
  apply (submit_transaction_verified sender recipient signature amount self Hsender).
  rewrite (verify_transaction_signature_decoded _ _ _ _ _ _ Hkey Himport Hsig).
  by rewrite Hverify.
Qed.

(** ** The local mining flow *)

Lemma submit_reward_state (recipient signature : string) (amount : value) self :
  snd (submit_transaction MINING_SENDER recipient signature amount self)
  = set_transactions
      (transactions self ++ [new_transaction MINING_SENDER recipient amount]) self.
Proof. reflexivity. Qed.

Lemma register_node_state (node_url : string) self :
  chain (snd (register_node node_url self)) = chain self
  ∧ transactions (snd (register_node node_url self)) = transactions self.
Proof.
  unfold register_node.
  destruct (Urllib.urlparse node_url) as [parsed_url|e]; [|done].
  destruct (negb (String.eqb (Urllib.netloc parsed_url) "")); [done|].
  by destruct (negb (String.eqb (Urllib.path parsed_url) "")).
Qed.

(** What [/mine] does when it produces a block. *)
Lemma mine_returns (fuel : nat) (now : float) self self' block :
  mine fuel now self = Some (Return block, self') →
  ∃ (n : Z) (last_block : Block),
    last (chain self) = Some last_block
    ∧ valid_proof (transactions self) (hash last_block) n MINING_DIFFICULTY = true
    ∧ block = mkBlock (len (chain self) + 1) now
                (transactions self
                 ++ [new_transaction MINING_SENDER (node_id self) (VInt MINING_REWARD)])
                n (hash last_block)
    ∧ chain self' = chain self ++ [block]
    ∧ transactions self' = [].
Proof.
  unfold mine.
  destruct (proof_of_work fuel self) as [[n|e]|] eqn:Hpow; [|done|done].
  destruct (proof_of_work_returns _ _ _ Hpow) as (last_block & Hlast & Hvalid).
  rewrite submit_reward_state.
  unfold last_item, create_block. simpl. rewrite Hlast.
  intros [= <- <-]. exists n, last_block. simpl. done.
Qed.

(** [/mine] produces a block as soon as the fuel covers a valid
    nonce. *)
Lemma mine_total (fuel : nat) (now : float) self (last_block : Block) (m : Z) :
  last (chain self) = Some last_block →
  (0 ≤ m)%Z →
  valid_proof (transactions self) (hash last_block) m MINING_DIFFICULTY = true →
  (Z.to_nat m < fuel)%nat →
  ∃ block self', mine fuel now self = Some (Return block, self').
Proof.
  intros Hlast Hm Hvalid Hfuel.
  destruct (proof_of_work_loop_complete MINING_DIFFICULTY (transactions self)
              (hash last_block) fuel 0 m) as [n Hn]; [done | done | lia |].
  unfold mine, proof_of_work, last_item. rewrite Hlast, Hn. simpl.
  rewrite Hlast. eauto.
Qed.

(** The invariant of the local flow: the chain passes [valid_chain] and
    every pending transaction has the three keys in order. *)
Lemma local_run_invariant self :
  local_run self →
  valid_chain (chain self) = Return true
  ∧ Forall (λ tx, rebuild_transaction tx = Return tx) (transactions self).
Proof.
  induction 1 as
    [ uuid now
    | self sender recipient signature amount _ [IHc IHp]
    | self node_url _ [IHc IHp]
    | self self' fuel now block _ [IHc IHp] Hmine ].
  - split; [reflexivity | constructor].
  - destruct (submit_transaction_state sender recipient signature amount self)
      as [-> | ->]; [done|].
    simpl. split; [done|].
    apply Forall_app. split; [done|].
    constructor; [apply rebuild_new_transaction | constructor].
  - destruct (register_node_state node_url self) as [-> ->]. done.
  - apply mine_returns in Hmine
      as (n & last_block & Hlast & Hvalid & Hblock & -> & ->).
    split; [|constructor].
    destruct (chain self) as [|b0 rest] eqn:Hchain; [done|].
    simpl in IHc |- *.
    apply (valid_chain_loop_snoc b0 rest last_block block (transactions self));
      try done.
    + by rewrite Hblock.
    + rewrite Hblock. simpl. rewrite drop_last_snoc. by apply map_except_fixed.
    + by rewrite Hblock.
Qed.

(** C1: the chain of a node that only ran the local flow (start-up,
    submissions, and [/mine] requests that returned a block) passes the
    node's own [valid_chain]. *)
Theorem local_chain_valid self :
  local_run self → valid_chain (chain self) = Return true.
Proof.
  intros Hrun. by destruct (local_run_invariant self Hrun) as [Hchain _].
Qed.

(** ** [resolve_conflicts] *)

(** While [max_length] is still an integer, a peer that answers 200
    with a length that is not greater is passed over. *)
Lemma resolve_loop_not_longer (requests_get : string → except Response)
    (node : string) (rest : list string) (response : Response) (n : Z)
    (new_chain : option (list Block)) :
  requests_get (chain_url node) = Return response →
  status_code response = 200%Z →
  (resp_length response ≤ n)%Z →
  resolve_loop requests_get (node :: rest) (MaxInt n) new_chain
  = resolve_loop requests_get rest (MaxInt n) new_chain.
Proof.
  intros Hget Hstatus Hlen. simpl. rewrite Hget. simpl. rewrite Hstatus. simpl.
  by replace (n <? resp_length response)%Z with false by (symmetry; apply Z.ltb_ge; lia).
Qed.

(** A peer that answers with a status other than 200 is passed over,
    wherever it stands in the order. *)
Lemma resolve_loop_skip (requests_get : string → except Response)
    (pre : list string) (node : string) (post : list string) (response : Response)
    (max_length : max_length_value) (new_chain : option (list Block)) :
  requests_get (chain_url node) = Return response →
  status_code response ≠ 200%Z →
  resolve_loop requests_get (pre ++ node :: post) max_length new_chain
  = resolve_loop requests_get (pre ++ post) max_length new_chain.
Proof.
  intros Hget Hstatus. apply Z.eqb_neq in Hstatus.
  revert max_length new_chain.
  induction pre as [|p pre IH]; intros max_length new_chain; simpl.
  - by rewrite Hget; simpl; rewrite Hstatus.
  - destruct (requests_get (chain_url p)) as [r|e]; simpl; [|done].
    destruct (status_code r =? 200)%Z; [|apply IH].
    destruct (gt_max (resp_length r) max_length) as [[|]|e]; simpl; [| apply IH | done].
    destruct (valid_chain (resp_chain r)) as [[|]|e]; simpl; [apply IH | apply IH | done].
Qed.

(** A fetch that raises ends the loop with an exception, wherever the
    peer stands in the order. *)
Lemma resolve_loop_transport (requests_get : string → except Response)
    (pre : list string) (node : string) (post : list string) (e : exn)
    (max_length : max_length_value) (new_chain : option (list Block)) :
  requests_get (chain_url node) = Raise e →
  ∃ e', resolve_loop requests_get (pre ++ node :: post) max_length new_chain = Raise e'.
Proof.
  intros Hget. revert max_length new_chain.
  induction pre as [|p pre IH]; intros max_length new_chain; simpl.
  - rewrite Hget. simpl. eauto.
  - destruct (requests_get (chain_url p)) as [r|e0]; simpl; [|eauto].
    destruct (status_code r =? 200)%Z; [|apply IH].
    destruct (gt_max (resp_length r) max_length) as [[|]|e0]; simpl; [| apply IH | eauto].
    destruct (valid_chain (resp_chain r)) as [[|]|e0]; simpl; [apply IH | apply IH | eauto].
Qed.

(** C2, at the inputs where it fails: a first peer answers 200 with a
    valid chain longer than the local one, and a second peer answers
    200.  The first chain, not its length, is stored in [max_length];
    the comparison with the second peer's length raises [TypeError] and
    the request ends with it, the local chain unchanged. *)
Theorem resolve_conflicts_second_peer_raises (requests_get : string → except Response)
    (node1 node2 : string) (rest : list string) (response1 response2 : Response) self :
  requests_get (chain_url node1) = Return response1 →
  status_code response1 = 200%Z →
  (len (chain self) < resp_length response1)%Z →
  valid_chain (resp_chain response1) = Return true →
  requests_get (chain_url node2) = Return response2 →
  status_code response2 = 200%Z →
  resolve_conflicts_in requests_get (node1 :: node2 :: rest) self = (Raise TypeError, self).
Proof.
  intros Hget1 Hstatus1 Hlonger Hvalid Hget2 Hstatus2.
  unfold resolve_conflicts_in. simpl.
  rewrite Hget1. simpl. rewrite Hstatus1. simpl.
  replace (len (chain self) <? resp_length response1)%Z with true
    by (symmetry; by apply Z.ltb_lt).
  rewrite Hvalid. simpl.
  rewrite Hget2. simpl. by rewrite Hstatus2.
Qed.

(** C3, as amended: a peer whose response has a status other than 200
    is skipped, the outcome being the one without that peer; a fetch
    that fails in the transport is not caught, the request raises and
    the local chain is unchanged. *)
Theorem resolve_conflicts_skips_status (requests_get : string → except Response)
    (pre : list string) (node : string) (post : list string) self :
  (∀ response,
     requests_get (chain_url node) = Return response →
     status_code response ≠ 200%Z →
     resolve_conflicts_in requests_get (pre ++ node :: post) self
     = resolve_conflicts_in requests_get (pre ++ post) self)
  ∧ (∀ e,
     requests_get (chain_url node) = Raise e →
     ∃ e', resolve_conflicts_in requests_get (pre ++ node :: post) self = (Raise e', self)).
Proof.
  split.
  - intros response Hget Hstatus. unfold resolve_conflicts_in.
    by rewrite (resolve_loop_skip _ _ _ _ _ _ _ Hget Hstatus).
  - intros e Hget. unfold resolve_conflicts_in.
    destruct (resolve_loop_transport requests_get pre node post e
                (MaxInt (len (chain self))) None Hget) as [e' ->].
    eauto.
Qed.

(** ** [register_node] *)

Lemma str_forall_impl (p q : ascii → bool) (s : string) :
  (∀ c, p c = true → q c = true) →
  Urllib.str_forall p s = true → Urllib.str_forall q s = true.
Proof.
  intros Hpq. induction s as [|c s IH]; simpl; [done|].
  rewrite !andb_true_iff. intros [Hc Hs]. auto.
Qed.

Lemma find_split_none (p : ascii → bool) (s : string) :
  Urllib.str_forall (λ c, negb (p c)) s = true → Urllib.find_split p s = None.
Proof.
  induction s as [|c s IH]; simpl; [done|].
  rewrite andb_true_iff, negb_true_iff. intros [-> Hs]. by rewrite IH.
Qed.

Lemma find_split_head (p : ascii → bool) (c c' : ascii) (s a b : string) :
  Urllib.find_split p (String c s) = Some (String c' a, b) → c' = c.
Proof.
  simpl. destruct (p c); [done|].
  destruct (Urllib.find_split p s) as [[a' b']|]; [|done]. by intros [= <- _ _].
Qed.

Lemma contains_false (c : ascii) (s : string) :
  Urllib.str_forall (λ x, negb (Ascii.eqb x c)) s = true → Urllib.contains c s = false.
Proof. unfold Urllib.contains. by intros ->. Qed.

Lemma str_filter_all (p : ascii → bool) (s : string) :
  Urllib.str_forall p s = true → Urllib.str_filter p s = s.
Proof.
  induction s as [|c s IH]; simpl; [done|].
  rewrite andb_true_iff. intros [-> Hs]. by rewrite IH.
Qed.

Lemma is_ascii_forall (s : string) :
  Urllib.str_forall (λ c, (Urllib.code c <? 128)%N) s = true → is_ascii s = true.
Proof.
  induction s as [|c s IH]; simpl; [done|].
  rewrite !andb_true_iff. intros [Hc Hs]. auto.
Qed.

(** The characters of a plain host:port text are none of those that
    [urlparse] looks for. *)
Lemma hostport_char_spec (c : ascii) :
  Urllib.hostport_char c = true →
  (32 < Urllib.code c)%N ∧ (Urllib.code c < 128)%N
  ∧ ∀ d, In d ["/"; "?"; "#"; ";"; "["; "]"]%char → Ascii.eqb c d = false.
Proof.
  unfold Urllib.hostport_char.
  rewrite !andb_true_iff, negb_true_iff, !orb_false_iff, N.ltb_lt, N.ltb_lt.
  intros [[Hlo Hhi] (((((H1 & H2) & H3) & H4) & H5) & H6)].
  repeat split; try done.
  intros d Hd. simpl in Hd.
  destruct Hd as [<-|[<-|[<-|[<-|[<-|[<-|[]]]]]]]; done.
Qed.

Lemma hostport_no_char (d : ascii) (s : string) :
  In d ["/"; "?"; "#"; ";"; "["; "]"]%char →
  Urllib.str_forall Urllib.hostport_char s = true →
  Urllib.str_forall (λ x, negb (Ascii.eqb x d)) s = true.
Proof.
  intros Hd. apply str_forall_impl. intros c Hc.
  apply hostport_char_spec in Hc as (_ & _ & Hc). by rewrite Hc.
Qed.

Lemma hostport_remove_unsafe (s : string) :
  Urllib.str_forall Urllib.hostport_char s = true → Urllib.remove_unsafe s = s.
Proof.
  intros Hs. apply str_filter_all. revert Hs. apply str_forall_impl. intros c Hc.
  apply hostport_char_spec in Hc as (Hlo & _ & _).
  rewrite negb_true_iff, !orb_false_iff, !N.eqb_neq. lia.
Qed.

Lemma hostport_no_delimiter (s : string) :
  Urllib.str_forall Urllib.hostport_char s = true →
  Urllib.find_split (λ c, Ascii.eqb c "/" || Ascii.eqb c "?" || Ascii.eqb c "#") s = None.
Proof.
  intros Hs. apply find_split_none. revert Hs. apply str_forall_impl. intros c Hc.
  apply hostport_char_spec in Hc as (_ & _ & Hc).
  rewrite !Hc by (simpl; tauto). done.
Qed.

(** [urlparse] on a plain host:port text: no scheme and no netloc, the
    whole text is the path. *)
Lemma urlparse_plain_hostport (hp : string) :
  Urllib.plain_hostport hp = true →
  Urllib.urlparse hp = Return (Urllib.mkParseResult "" "" hp "" "" "").
Proof.
  unfold Urllib.plain_hostport. destruct hp as [|c0 s]; [done|].
  rewrite andb_true_iff, negb_true_iff. intros [Halpha Hchars].
  assert (Urllib.hostport_char c0 = true) as Hc0.
  { simpl in Hchars. by apply andb_true_iff in Hchars as [? _]. }
  apply hostport_char_spec in Hc0 as (Hlo & Hhi & Hc0).
  unfold Urllib.urlparse, Urllib.urlsplit.
  assert (Urllib.lstrip_c0 (String c0 s) = String c0 s) as ->.
  { simpl. by replace (Urllib.code c0 <=? 32)%N with false
      by (symmetry; apply N.leb_gt; lia). }
  rewrite (hostport_remove_unsafe _ Hchars).
  assert (Urllib.split_scheme (String c0 s) = (EmptyString, String c0 s)) as ->.
  { unfold Urllib.split_scheme.
    destruct (Urllib.find_split (Ascii.eqb ":") (String c0 s)) as [[[|c a] b]|] eqn:Hfind;
      try done.
    apply find_split_head in Hfind as ->. by rewrite Halpha. }
  assert (String.eqb (slice_to (String c0 s) 2) "//" = false) as ->.
  { change (slice_to (String c0 s) 2) with (String c0 (substring 0 1 s)).
    cbn [String.eqb]. by rewrite (Hc0 "/"%char) by (simpl; tauto). }
  simpl bind.
  rewrite (contains_false "#"), (contains_false "?")
    by (apply hostport_no_char; [simpl; tauto | done]).
  simpl.
  rewrite (contains_false ";") by (apply hostport_no_char; [simpl; tauto | done]).
  reflexivity.
Qed.

(** [urlparse] on the same text after [http://] or [https://]: the
    text is the netloc and the path is empty. *)
Lemma urlsplit_after_scheme (scheme0 hp : string) :
  Urllib.plain_hostport hp = true →
  Urllib.split_scheme (scheme0 +:+ "://" +:+ hp) = (scheme0, "//" +:+ hp) →
  Urllib.lstrip_c0 (scheme0 +:+ "://" +:+ hp) = scheme0 +:+ "://" +:+ hp →
  Urllib.remove_unsafe (scheme0 +:+ "://" +:+ hp)
  = scheme0 +:+ "://" +:+ Urllib.remove_unsafe hp →
  Urllib.urlsplit (scheme0 +:+ "://" +:+ hp) = Return (scheme0, hp, "", "", "")%string.
Proof.
  intros Hplain Hscheme Hstrip Hunsafe.
  assert (Urllib.str_forall Urllib.hostport_char hp = true) as Hchars.
  { unfold Urllib.plain_hostport in Hplain. destruct hp; [done|].
    by apply andb_true_iff in Hplain as [_ ?]. }
  unfold Urllib.urlsplit.
  rewrite Hstrip, Hunsafe, (hostport_remove_unsafe _ Hchars), Hscheme.
  assert (String.eqb (slice_to ("//" +:+ hp) 2) "//" = true) as ->.
  { change (slice_to ("//" +:+ hp) 2) with (String "/" (String "/" (substring 0 0 hp))).
    by destruct hp. }
  unfold Urllib.splitnetloc.
  change (Urllib.tail (Urllib.tail ("//" +:+ hp))) with hp.
  rewrite (hostport_no_delimiter _ Hchars).
  unfold Urllib.check_netloc_brackets.
  rewrite (contains_false "["), (contains_false "]")
    by (apply hostport_no_char; [simpl; tauto | done]).
  simpl.
  unfold Urllib.checknetloc.
  rewrite is_ascii_forall, orb_true_r; [done|].
  revert Hchars. apply str_forall_impl. intros c Hc.
  apply hostport_char_spec in Hc as (_ & Hhi & _). by apply N.ltb_lt.
Qed.

Lemma urlparse_http_hostport (hp : string) :
  Urllib.plain_hostport hp = true →
  Urllib.urlparse ("http://" +:+ hp) = Return (Urllib.mkParseResult "http" hp "" "" "" "")
  ∧ Urllib.urlparse ("https://" +:+ hp)
    = Return (Urllib.mkParseResult "https" hp "" "" "" "").
Proof.
  intros Hplain. unfold Urllib.urlparse. split.
  - change ("http://" +:+ hp) with ("http" +:+ "://" +:+ hp).
    rewrite (urlsplit_after_scheme "http" hp Hplain) by reflexivity. reflexivity.
  - change ("https://" +:+ hp) with ("https" +:+ "://" +:+ hp).
    rewrite (urlsplit_after_scheme "https" hp Hplain) by reflexivity. reflexivity.
Qed.

Lemma set_nodes_twice (n1 n2 : gset string) self :
  set_nodes n2 (set_nodes n1 self) = set_nodes n2 self.
Proof. reflexivity. Qed.

Lemma union_singleton_twice (X : gset string) (k : string) :
  X ∪ {[ k ]} ∪ {[ k ]} = X ∪ {[ k ]}.
Proof. by rewrite <- (assoc_L (∪)), (idemp_L (∪)). Qed.

(** Registering an address a second time changes nothing. *)
Lemma register_node_idempotent (node_url : string) self :
  snd (register_node node_url (snd (register_node node_url self)))
  = snd (register_node node_url self).
Proof.
  unfold register_node.
  destruct (Urllib.urlparse node_url) as [parsed_url|e]; simpl; [|done].
  destruct (negb (String.eqb (Urllib.netloc parsed_url) "")); simpl.
  - rewrite set_nodes_twice. f_equal. apply union_singleton_twice.
  - destruct (negb (String.eqb (Urllib.path parsed_url) "")); simpl; [|done].
    rewrite set_nodes_twice. f_equal. apply union_singleton_twice.
Qed.

Lemma plain_hostport_nonempty (hp : string) :
  Urllib.plain_hostport hp = true → negb (String.eqb hp "") = true.
Proof. by destruct hp. Qed.

(** The forms that [register_node] stores as one entry: for a
    host:port text that does not start with a letter and has no path,
    query or bracket character, the bare text and the text after
    [http://] or [https://] give the same entry; and registering an
    address twice is the same as registering it once. *)
Theorem register_node_hostport_forms (hp : string) self :
  Urllib.plain_hostport hp = true →
  let added := (Return tt, set_nodes (nodes self ∪ {[ hp ]}) self) in
  register_node hp self = added
  ∧ register_node ("http://" +:+ hp) self = added
  ∧ register_node ("https://" +:+ hp) self = added
  ∧ (nodes self = ∅ →
     nodes (snd (register_node ("http://" +:+ hp) (snd (register_node hp self))))
     = {[ hp ]})
  ∧ ∀ node_url,
      snd (register_node node_url (snd (register_node node_url self)))
      = snd (register_node node_url self).
Proof.
  intros Hplain added. subst added.
  pose proof (plain_hostport_nonempty hp Hplain) as Hne.
  destruct (urlparse_http_hostport hp Hplain) as [Hhttp Hhttps].
  assert (register_node hp self = (Return tt, set_nodes (nodes self ∪ {[ hp ]}) self))
    as Hbare.
  { unfold register_node. rewrite (urlparse_plain_hostport hp Hplain). simpl.
    by rewrite Hne. }
  assert (∀ s, register_node ("http://" +:+ hp) s
               = (Return tt, set_nodes (nodes s ∪ {[ hp ]}) s)) as Hurl.
  { intros s. unfold register_node. rewrite Hhttp. simpl. by rewrite Hne. }
  split; [done|]. split; [apply Hurl|]. split; [|split].
  - unfold register_node. rewrite Hhttps. simpl. by rewrite Hne.
  - intros Hempty. rewrite Hbare, Hurl. simpl.
    by rewrite union_singleton_twice, Hempty, (left_id_L ∅ (∪)).
  - intros node_url. apply register_node_idempotent.
Qed.

End Properties.

(** * Further properties of the code *)

Section Validation.

Context `{L : Library}.

Implicit Types (self : Blockchain) (block : Block) (txs : list OrderedDict).

(** ** [valid_chain] on candidates of any shape *)

(** One turn of the loop: the block is checked against the one before
    it, then the loop goes on from the block. *)
Lemma valid_chain_loop_step (b0 b1 : Block) (rest : list Block) :
  valid_chain_loop b0 (b1 :: rest) = Return true ↔
  (previous_hash b1 = hash b0
   ∧ ∃ txs,
       map_except rebuild_transaction (drop_last (block_transactions b1)) = Return txs
       ∧ valid_proof txs (previous_hash b1) (nonce b1) MINING_DIFFICULTY = true)
  ∧ valid_chain_loop b1 rest = Return true.
Proof.
  simpl. split.
  - destruct (String.eqb (previous_hash b1) (hash b0)) eqn:Hlink; simpl; [|done].
    apply String.eqb_eq in Hlink.
    destruct (map_except rebuild_transaction (drop_last (block_transactions b1)))
      as [txs|e]; simpl; [|done].
    destruct (valid_proof txs (previous_hash b1) (nonce b1) MINING_DIFFICULTY) eqn:Hproof;
      simpl; [|done].
    intros Hrest. split; [|done]. split; [done|]. by exists txs.
  - intros [[Hlink (txs & Htxs & Hproof)] Hrest].
    rewrite Hlink, String.eqb_refl. simpl. rewrite Htxs. simpl.
    rewrite <- Hlink, Hproof. simpl. done.
Qed.

(** The loop over a valid prefix ends at the last block of the prefix
    and goes on from there. *)
Lemma valid_chain_loop_app (b0 lastb : Block) (r1 r2 : list Block) :
  valid_chain_loop b0 r1 = Return true →
  last (b0 :: r1) = Some lastb →
  valid_chain_loop b0 (r1 ++ r2) = valid_chain_loop lastb r2.
Proof.
  revert b0. induction r1 as [|b1 r1 IH]; intros b0 Hok Hlast.
  - simpl in Hlast. by injection Hlast as ->.
  - apply valid_chain_loop_step in Hok as [[Hlink (txs & Htxs & Hproof)] Hrest].
    change ((b1 :: r1) ++ r2) with (b1 :: (r1 ++ r2)).
    cbn [valid_chain_loop].
    rewrite Hlink, String.eqb_refl. cbn [negb]. rewrite Htxs. cbn [bind].
    rewrite <- Hlink, Hproof. cbn [negb].
    apply IH; done.
Qed.

Lemma valid_chain_after_prefix (c : list Block) (b : Block) (r2 : list Block) :
  valid_chain (c ++ [b]) = Return true →
  valid_chain (c ++ b :: r2) = valid_chain_loop b r2.
Proof.
  destruct c as [|b0 r1]; [done|]. simpl. intros Hok.
  replace (r1 ++ b :: r2) with ((r1 ++ [b]) ++ r2) by (by rewrite <- app_assoc).
  apply valid_chain_loop_app; [done|].
  change (b0 :: r1 ++ [b]) with ((b0 :: r1) ++ [b]). apply last_snoc.
Qed.

(** [valid_chain] accepts a candidate exactly when it is not empty and
    every block after the first names the hash of the block before it,
    has transactions (the last one apart) with the three keys, and a
    nonce that is a proof for them.  Block numbers, timestamps and the
    last transaction of a block are read through the hash of the block
    only. *)
Theorem valid_chain_accepts_iff (given_chain : list Block) :
  valid_chain given_chain = Return true ↔
  given_chain ≠ []
  ∧ ∀ (i : nat) (last_block block : Block),
      given_chain !! i = Some last_block →
      given_chain !! S i = Some block →
      previous_hash block = hash last_block
      ∧ ∃ txs,
          map_except rebuild_transaction (drop_last (block_transactions block))
          = Return txs
          ∧ valid_proof txs (previous_hash block) (nonce block) MINING_DIFFICULTY = true.
Proof.
  destruct given_chain as [|b0 rest]; simpl.
  { split; [done|]. by intros [? _]. }
  revert b0. induction rest as [|b1 rest IH]; intros b0.
  - split; [|done]. intros _. split; [done|]. intros i ? ? _ Hnext.
    by destruct i.
  - rewrite valid_chain_loop_step, IH. split.
    + intros [Hfirst [_ Hrest]]. split; [done|].
      intros [|i] last_block block Hi Hnext; simpl in Hi, Hnext.
      * by injection Hi as <-; injection Hnext as <-.
      * by apply (Hrest i).
    + intros [_ Hall]. split; [by apply (Hall 0%nat)|]. split; [done|].
      intros i last_block block Hi Hnext. by apply (Hall (S i)).
Qed.

(** A candidate whose blocks are in order up to [b] and whose next
    block does not name the hash of [b] is answered with [False],
    whatever follows. *)
Theorem valid_chain_broken_link (c : list Block) (b b' : Block) (post : list Block) :
  valid_chain (c ++ [b]) = Return true →
  previous_hash b' ≠ hash b →
  valid_chain (c ++ b :: b' :: post) = Return false.
Proof.
  intros Hprefix Hlink. rewrite (valid_chain_after_prefix c b (b' :: post) Hprefix).
  simpl. apply String.eqb_neq in Hlink. by rewrite Hlink.
Qed.

(** [d[k]] raises nothing but [KeyError], and raises it when the key is
    missing. *)
Lemma getitem_outcome (d : OrderedDict) (k : string) :
  (∃ v, getitem d k = Return v ∧ (k, v) ∈ d)
  ∨ (getitem d k = Raise KeyError ∧ k ∉ d.*1).
Proof.
  induction d as [|[k' v] d IH]; simpl.
  - right. split; [done|]. apply not_elem_of_nil.
  - destruct (String.eqb k' k) eqn:Hk.
    + apply String.eqb_eq in Hk as ->. left. exists v. split; [done|]. by left.
    + apply String.eqb_neq in Hk. destruct IH as [(v' & Hv & Hin) | [Hraise Hnotin]].
      * left. exists v'. split; [done|]. by right.
      * right. split; [done|]. rewrite not_elem_of_cons. done.
Qed.

Lemma map_except_raise {A B : Type} (f : A → except B) (e0 : exn) (l : list A) (x : A) :
  (∀ y e, f y = Raise e → e = e0) →
  x ∈ l → f x = Raise e0 → map_except f l = Raise e0.
Proof.
  intros Hclass Hin Hx. induction l as [|y l IH]; [by apply elem_of_nil in Hin|].
  simpl. destruct (f y) as [z|e] eqn:Hy; simpl.
  - apply elem_of_cons in Hin as [->|Hin]; [congruence|].
    by rewrite (IH Hin).
  - by rewrite (Hclass _ _ Hy).
Qed.

Lemma rebuild_transaction_raises (transaction : OrderedDict) (e : exn) :
  rebuild_transaction transaction = Raise e → e = KeyError.
Proof.
  unfold rebuild_transaction, transaction_elements. simpl.
  destruct (getitem_outcome transaction "sender_public_key") as [(v1 & -> & _) | [-> _]];
    simpl; [|congruence].
  destruct (getitem_outcome transaction "recipient_public_key") as [(v2 & -> & _) | [-> _]];
    simpl; [|congruence].
  destruct (getitem_outcome transaction "amount") as [(v3 & -> & _) | [-> _]];
    simpl; congruence.
Qed.

Lemma rebuild_transaction_missing (transaction : OrderedDict) (k : string) :
  k ∈ transaction_elements → k ∉ transaction.*1 →
  rebuild_transaction transaction = Raise KeyError.
Proof.
  intros Hk Hmissing.
  assert (getitem transaction k = Raise KeyError) as Hraise.
  { destruct (getitem_outcome transaction k) as [(v & _ & Hin) | [? _]]; [|done].
    destruct Hmissing. apply list_elem_of_fmap. by exists (k, v). }
  unfold rebuild_transaction, transaction_elements in *.
  apply list_elem_of_In in Hk. simpl in Hk.
  destruct Hk as [<-|[<-|[<-|[]]]]; simpl.
  - by rewrite Hraise.
  - destruct (getitem_outcome transaction "sender_public_key")
      as [(v1 & -> & _) | [-> _]]; simpl; [|done].
    by rewrite Hraise.
  - destruct (getitem_outcome transaction "sender_public_key")
      as [(v1 & -> & _) | [-> _]]; simpl; [|done].
    destruct (getitem_outcome transaction "recipient_public_key")
      as [(v2 & -> & _) | [-> _]]; simpl; [|done].
    by rewrite Hraise.
Qed.

(** A candidate in order up to [b] whose next block is linked to [b]
    but holds, before its last transaction, a transaction without one
    of the three keys: [valid_chain] raises [KeyError] instead of
    answering [False]. *)
Theorem valid_chain_missing_key (c : list Block) (b b' : Block) (post : list Block)
    (transaction : OrderedDict) (k : string) :
  valid_chain (c ++ [b]) = Return true →
  previous_hash b' = hash b →
  transaction ∈ drop_last (block_transactions b') →
  k ∈ transaction_elements →
  k ∉ transaction.*1 →
  valid_chain (c ++ b :: b' :: post) = Raise KeyError.
Proof.
  intros Hprefix Hlink Hin Hk Hmissing.
  rewrite (valid_chain_after_prefix c b (b' :: post) Hprefix).
  cbn [valid_chain_loop]. rewrite Hlink, String.eqb_refl. cbn [negb].
  rewrite (map_except_raise rebuild_transaction KeyError _ transaction);
    [done | apply rebuild_transaction_raises | done |].
  by apply (rebuild_transaction_missing transaction k).
Qed.

(** The last block of a candidate is checked through its
    [previous_hash], its [nonce] and its transactions without the last
    one, rebuilt from the three keys: two last blocks that agree on
    these get the same verdict, whatever their number, timestamp and
    last transaction. *)
Theorem valid_chain_last_block_unchecked (c : list Block) (b b' : Block) :
  previous_hash b = previous_hash b' →
  nonce b = nonce b' →
  map_except rebuild_transaction (drop_last (block_transactions b))
  = map_except rebuild_transaction (drop_last (block_transactions b')) →
  valid_chain (c ++ [b]) = valid_chain (c ++ [b']).
Proof.
  intros Hprev Hnonce Htxs.
  destruct c as [|b0 rest]; [done|]. simpl.
  revert b0. induction rest as [|b1 rest IH]; intros b0.
  - simpl. by rewrite Hprev, Hnonce, Htxs.
  - change ((b1 :: rest) ++ [b]) with (b1 :: (rest ++ [b])).
    change ((b1 :: rest) ++ [b']) with (b1 :: (rest ++ [b'])).
    cbn [valid_chain_loop]. by rewrite IH.
Qed.

(** ** [valid_proof] at the ends of the range of difficulties *)

Lemma substring_length_le (n : nat) (s : string) :
  (String.length (substring 0 n s) ≤ String.length s)%nat.
Proof.
  revert n. induction s as [|c s IH]; intros [|n]; simpl; try lia.
  specialize (IH n). lia.
Qed.

Lemma str_repeat_length (n : nat) : String.length (str_repeat "0" n) = n.
Proof. induction n as [|n IH]; simpl; [done|]. by f_equal. Qed.

(** With difficulty 0 every nonce is a proof, and with a difficulty
    above the length of the digest no nonce is one: the search of
    [proof_of_work] written for such a difficulty returns 0 at once in
    the first case and never returns in the second. *)
Theorem valid_proof_difficulty_range txs (last_hash : string) (nonce0 : Z) :
  valid_proof txs last_hash nonce0 0 = true
  ∧ (∀ fuel, proof_of_work_loop 0 txs last_hash (S fuel) 0 = Some 0%Z)
  ∧ ∀ difficulty : Z,
      (∀ guess, Z.of_nat (String.length (sha256_hexdigest guess)) < difficulty)%Z →
      valid_proof txs last_hash nonce0 difficulty = false
      ∧ ∀ fuel start, proof_of_work_loop difficulty txs last_hash fuel start = None.
Proof.
  assert (∀ n, valid_proof txs last_hash n 0 = true) as Hzero.
  { intros n. unfold valid_proof, slice_to, str_mul.
    change (0 <=? 0)%Z with true. change (Z.to_nat 0) with 0%nat. cbn iota.
    by destruct (sha256_hexdigest _). }
  split; [apply Hzero|]. split; [intros fuel; simpl; by rewrite Hzero|].
  intros difficulty Hshort.
  assert (∀ n, valid_proof txs last_hash n difficulty = false) as Hnever.
  { intros n. unfold valid_proof. apply String.eqb_neq. intros Heq.
    apply (f_equal String.length) in Heq.
    set (guess := (str_list txs +:+ last_hash +:+ str_int n)%string) in *.
    specialize (Hshort guess).
    unfold str_mul in Heq. rewrite str_repeat_length in Heq.
    unfold slice_to in Heq.
    assert ((0 <=? difficulty)%Z = true) as Hpos by (apply Z.leb_le; lia).
    rewrite Hpos in Heq.
    pose proof (substring_length_le (Z.to_nat difficulty) (sha256_hexdigest guess)).
    lia. }
  split; [apply Hnever|].
  intros fuel. induction fuel as [|fuel IH]; intros start; simpl; [done|].
  by rewrite Hnever.
Qed.

End Validation.

Section Consensus.

Context `{L : Library}.

Implicit Types (self : Blockchain) (block : Block).

(** ** [resolve_conflicts] *)

(** A peer is quiet for a node when its answer has a status other than
    200 or a length that is not above the length of the local chain. *)
Lemma resolve_loop_quiet (requests_get : string → except Response)
    (pre rest : list string) (n : Z) (new_chain : option (list Block)) :
  (∀ node, node ∈ pre →
     ∃ response, requests_get (chain_url node) = Return response
                 ∧ (status_code response ≠ 200%Z ∨ (resp_length response ≤ n)%Z)) →
  resolve_loop requests_get (pre ++ rest) (MaxInt n) new_chain
  = resolve_loop requests_get rest (MaxInt n) new_chain.
Proof.
  induction pre as [|p pre IH]; intros Hquiet; [done|].
  destruct (Hquiet p) as (response & Hget & Hcase); [by left|].
  change ((p :: pre) ++ rest) with (p :: (pre ++ rest)).
  cbn [resolve_loop]. rewrite Hget. cbn [bind].
  rewrite IH by (intros node Hnode; apply Hquiet; by right).
  destruct (status_code response =? 200)%Z eqn:Hstatus; [|done].
  destruct Hcase as [Hne | Hle]; [by apply Z.eqb_eq in Hstatus|].
  cbn [gt_max bind].
  by replace (n <? resp_length response)%Z with false by (symmetry; apply Z.ltb_ge; lia).
Qed.

(** When no peer has a status 200 and a length above the local one,
    the request answers [False] and changes nothing; in particular a
    chain as long as the local one never replaces it. *)
Theorem resolve_conflicts_quiet_peers (requests_get : string → except Response)
    (neighbours : list string) self :
  (∀ node, node ∈ neighbours →
     ∃ response, requests_get (chain_url node) = Return response
                 ∧ (status_code response ≠ 200%Z
                    ∨ (resp_length response ≤ len (chain self))%Z)) →
  resolve_conflicts_in requests_get neighbours self = (Return false, self).
Proof.
  intros Hquiet. unfold resolve_conflicts_in.
  rewrite <- (app_nil_r neighbours).
  by rewrite (resolve_loop_quiet _ _ [] _ _ Hquiet).
Qed.

(** What the loop can return without raising: after a chain has been
    stored in [max_length] only peers with another status can follow;
    before that, the chain returned is the one held at the start or
    the chain of a peer that passed the three tests. *)
Lemma resolve_loop_returns_chain (requests_get : string → except Response)
    (neighbours : list string) (c : list Block) (new_chain result : option (list Block)) :
  resolve_loop requests_get neighbours (MaxChain c) new_chain = Return result →
  result = new_chain.
Proof.
  revert new_chain. induction neighbours as [|p neighbours IH]; intros new_chain; simpl.
  - by intros [= <-].
  - destruct (requests_get (chain_url p)) as [response|e]; simpl; [|done].
    destruct (status_code response =? 200)%Z; [done|]. apply IH.
Qed.

Lemma resolve_loop_returns (requests_get : string → except Response)
    (neighbours : list string) (n : Z) (new_chain result : option (list Block)) :
  resolve_loop requests_get neighbours (MaxInt n) new_chain = Return result →
  result = new_chain
  ∨ ∃ node response,
      node ∈ neighbours
      ∧ requests_get (chain_url node) = Return response
      ∧ status_code response = 200%Z
      ∧ (n < resp_length response)%Z
      ∧ valid_chain (resp_chain response) = Return true
      ∧ result = Some (resp_chain response).
Proof.
  revert new_chain. induction neighbours as [|p neighbours IH]; intros new_chain; simpl.
  - intros [= <-]. by left.
  - destruct (requests_get (chain_url p)) as [response|e] eqn:Hget; simpl; [|done].
    assert (∀ nc, resolve_loop requests_get neighbours (MaxInt n) nc = Return result →
                  result = nc
                  ∨ ∃ node response0,
                      node ∈ p :: neighbours
                      ∧ requests_get (chain_url node) = Return response0
                      ∧ status_code response0 = 200%Z
                      ∧ (n < resp_length response0)%Z
                      ∧ valid_chain (resp_chain response0) = Return true
                      ∧ result = Some (resp_chain response0)) as Hnext.
    { intros nc Hloop. destruct (IH _ Hloop) as [-> | (node & r & Hin & Hrest)];
        [by left|]. right. exists node, r. split; [by right | done]. }
    destruct (status_code response =? 200)%Z eqn:Hstatus; [|apply Hnext].
    apply Z.eqb_eq in Hstatus.
    destruct (n <? resp_length response)%Z eqn:Hlonger; simpl; [|apply Hnext].
    apply Z.ltb_lt in Hlonger.
    destruct (valid_chain (resp_chain response)) as [[|]|e] eqn:Hvalid; simpl;
      [| apply Hnext | done].
    intros Hloop. apply resolve_loop_returns_chain in Hloop as ->.
    right. exists p, response. split; [by left | done].
Qed.

(** When the request answers [True], the chain the node now holds is
    the chain sent by one of its peers with status 200, with a reported
    length above the length of the former chain, and accepted by
    [valid_chain]; the pool, the peers and the identity of the node are
    the same. *)
Theorem resolve_conflicts_adopts_valid_longer (requests_get : string → except Response)
    (neighbours : list string) self self' :
  resolve_conflicts_in requests_get neighbours self = (Return true, self') →
  ∃ node response,
    node ∈ neighbours
    ∧ requests_get (chain_url node) = Return response
    ∧ status_code response = 200%Z
    ∧ (len (chain self) < resp_length response)%Z
    ∧ valid_chain (resp_chain response) = Return true
    ∧ self' = set_chain (resp_chain response) self.
Proof.
  unfold resolve_conflicts_in.
  destruct (resolve_loop requests_get neighbours (MaxInt (len (chain self))) None)
    as [result|e] eqn:Hloop; [|done].
  destruct (chain_truthy result) eqn:Htruthy; [|done].
  intros [= <-].
  apply resolve_loop_returns in Hloop as [-> | (node & response & Hin & Hget & Hs & Hl & Hv & ->)];
    [done|].
  exists node, response. done.
Qed.

(** The reported length is not compared with the chain that comes with
    it: a single peer that reports a length above the local one and
    sends one block, whatever the block, replaces the whole local
    chain. *)
Theorem resolve_conflicts_trusts_length (requests_get : string → except Response)
    (node : string) (n : Z) (block : Block) self :
  requests_get (chain_url node) = Return (mkResponse 200 n [block]) →
  (len (chain self) < n)%Z →
  resolve_conflicts_in requests_get [node] self = (Return true, set_chain [block] self).
Proof.
  intros Hget Hlonger. unfold resolve_conflicts_in. simpl. rewrite Hget. simpl.
  by replace (len (chain self) <? n)%Z with true by (symmetry; by apply Z.ltb_lt).
Qed.

(** After quiet peers, a peer with status 200 that reports a length
    above the local one and sends an empty chain makes the request
    raise [IndexError]; the node keeps its chain. *)
Theorem resolve_conflicts_empty_chain (requests_get : string → except Response)
    (pre : list string) (node : string) (post : list string) (n : Z) self :
  (∀ p, p ∈ pre →
     ∃ response, requests_get (chain_url p) = Return response
                 ∧ (status_code response ≠ 200%Z
                    ∨ (resp_length response ≤ len (chain self))%Z)) →
  requests_get (chain_url node) = Return (mkResponse 200 n []) →
  (len (chain self) < n)%Z →
  resolve_conflicts_in requests_get (pre ++ node :: post) self = (Raise IndexError, self).
Proof.
  intros Hquiet Hget Hlonger. unfold resolve_conflicts_in.
  rewrite (resolve_loop_quiet _ _ _ _ _ Hquiet). simpl. rewrite Hget. simpl.
  by replace (len (chain self) <? n)%Z with true by (symmetry; by apply Z.ltb_lt).
Qed.

(** ** A chain as it arrives from a peer *)

Lemma leb_refl (s : string) : String.leb s s = true.
Proof. by destruct (String.leb_total s s). Qed.

Lemma getitem_insert_item (k : string) (v : value) (d : OrderedDict) (k' : string) :
  getitem (insert_item (k, v) d) k'
  = if String.eqb k k' then Return v else getitem d k'.
Proof.
  induction d as [|[k1 v1] d IH]; simpl; [done|].
  destruct (String.leb k k1) eqn:Hle; simpl; [done|].
  rewrite IH.
  destruct (String.eqb k1 k') eqn:H1; [|done].
  destruct (String.eqb k k') eqn:H2; [|done].
  apply String.eqb_eq in H1, H2. subst. by rewrite leb_refl in Hle.
Qed.

(** Sorting the keys of a dictionary changes no lookup. *)
Lemma getitem_sort_keys (d : OrderedDict) (k : string) :
  getitem (sort_keys d) k = getitem d k.
Proof.
  induction d as [|[k1 v1] d IH]; simpl; [done|].
  fold (sort_keys d). by rewrite getitem_insert_item, IH.
Qed.

Lemma rebuild_transaction_sort_keys (d : OrderedDict) :
  rebuild_transaction (sort_keys d) = rebuild_transaction d.
Proof.
  unfold rebuild_transaction, transaction_elements. simpl.
  by rewrite !getitem_sort_keys.
Qed.

Lemma map_except_rebuild_sorted (l : list OrderedDict) :
  map_except rebuild_transaction (sort_keys <$> l) = map_except rebuild_transaction l.
Proof.
  induction l as [|d l IH]; [done|].
  cbn [fmap list_fmap map_except]. fold (sort_keys <$> l).
  by rewrite rebuild_transaction_sort_keys, IH.
Qed.

Lemma drop_last_fmap {A B : Type} (f : A → B) (l : list A) :
  drop_last (f <$> l) = f <$> drop_last l.
Proof.
  unfold drop_last. induction l as [|x l IH]; [done|].
  destruct l as [|y l]; [done|]. simpl in *. by rewrite IH.
Qed.

(** [valid_chain] gives the chain as it arrives the verdict it gives
    the chain as the peer holds it, when the serialisation that is
    hashed does not depend on the order of the keys. *)
Lemma valid_chain_wire (given_chain : list Block) :
  (∀ block : Block, json_dumps (wire_block block) = json_dumps block) →
  valid_chain (wire_block <$> given_chain) = valid_chain given_chain.
Proof.
  intros Hsorted.
  assert (∀ block : Block, hash (wire_block block) = hash block) as Hhash.
  { intros block. unfold hash. by rewrite Hsorted. }
  destruct given_chain as [|b0 rest]; [done|].
  cbn [fmap list_fmap valid_chain]. fold (wire_block <$> rest).
  revert b0. induction rest as [|b1 rest IH]; intros b0; [done|].
  cbn [fmap list_fmap valid_chain_loop]. fold (wire_block <$> rest).
  rewrite Hhash, IH.
  cbn [wire_block previous_hash nonce block_transactions].
  by rewrite drop_last_fmap, map_except_rebuild_sorted.
Qed.

(** A dictionary with sorted keys is left as it is by the sort. *)
Lemma insert_item_sorted (item : string * value) (d : OrderedDict) :
  Sorted (λ x y, String.leb (fst x) (fst y) = true) d →
  Sorted (λ x y, String.leb (fst x) (fst y) = true) (insert_item item d).
Proof.
  induction 1 as [|item' d Hsorted IH Hhd]; simpl.
  - by repeat constructor.
  - destruct (String.leb (fst item) (fst item')) eqn:Hle.
    + constructor; [by constructor|]. by constructor.
    + constructor; [done|].
      assert (String.leb (fst item') (fst item) = true) as Hge.
      { destruct (String.leb_total (fst item) (fst item')); congruence. }
      destruct d as [|item'' d]; simpl.
      * by constructor.
      * destruct (String.leb (fst item) (fst item'')); constructor; [done|].
        by inversion Hhd.
Qed.

Lemma sort_keys_sorted (d : OrderedDict) :
  Sorted (λ x y, String.leb (fst x) (fst y) = true) (sort_keys d).
Proof.
  induction d as [|item d IH]; simpl; [constructor|].
  by apply insert_item_sorted.
Qed.

Lemma sort_keys_fixed (d : OrderedDict) :
  Sorted (λ x y, String.leb (fst x) (fst y) = true) d → sort_keys d = d.
Proof.
  induction 1 as [|item d Hsorted IH Hhd]; simpl; [done|].
  fold (sort_keys d). rewrite IH.
  destruct Hhd as [|item' d Hle]; simpl; [done|]. by rewrite Hle.
Qed.

Lemma wire_block_idempotent {float : Type} (block : Block_ float) :
  wire_block (wire_block block) = wire_block block.
Proof.
  unfold wire_block. simpl. f_equal.
  induction (block_transactions block) as [|d l IH]; [done|].
  cbn [fmap list_fmap]. fold (sort_keys <$> l). fold (sort_keys <$> (sort_keys <$> l)).
  f_equal; [|done]. apply sort_keys_fixed, sort_keys_sorted.
Qed.

(** A node with a single peer that runs this module on a chain built by
    its own local flow and answers [/chain] as [jsonify] writes it,
    the hash being taken, as [json.dumps(..., sort_keys=True)] gives
    it, of a text that does not depend on the order of the keys: the
    chain received is adopted when the chain of the peer is longer than
    the local one, and the request answers [False] and changes nothing
    otherwise. *)
Theorem resolve_conflicts_honest_peer (requests_get : string → except Response)
    (node : string) (peer self : Blockchain) :
  (∀ block : Block, json_dumps (wire_block block) = json_dumps block) →
  local_run peer →
  requests_get (chain_url node) = Return (chain_route peer) →
  resolve_conflicts_in requests_get [node] self
  = if (len (chain self) <? len (chain peer))%Z
    then (Return true, set_chain (wire_block <$> chain peer) self)
    else (Return false, self).
Proof.
  intros Hsorted Hrun Hget.
  destruct (local_run_invariant peer Hrun) as [Hvalid _].
  unfold resolve_conflicts_in. simpl. rewrite Hget. simpl.
  destruct (len (chain self) <? len (chain peer))%Z; simpl; [|done].
  rewrite (valid_chain_wire _ Hsorted), Hvalid. simpl.
  by destruct (chain peer).
Qed.

End Consensus.

Section Ledger.

Context `{L : Library}.

Implicit Types (self : Blockchain) (block : Block) (txs : list OrderedDict).

(** ** The chain of the local flow *)

Lemma mine_state (fuel : nat) (now : float) self self' block :
  mine fuel now self = Some (Return block, self') →
  block_number block = (len (chain self) + 1)%Z
  ∧ (∃ pool, block_transactions block
             = pool ++ [new_transaction MINING_SENDER (node_id self) (VInt MINING_REWARD)])
  ∧ self' = mkBlockchain [] (chain self ++ [block]) (nodes self) (node_id self).
Proof.
  unfold mine.
  destruct (proof_of_work fuel self) as [[n|e]|] eqn:Hpow; [|done|done].
  destruct (proof_of_work_returns _ _ _ Hpow) as (last_block & Hlast & _).
  rewrite submit_reward_state.
  unfold last_item, create_block. simpl. rewrite Hlast.
  intros [= <- <-]. simpl. split; [done|]. split; [|done]. by eexists.
Qed.

Lemma submit_transaction_frame (sender recipient signature : string) (amount : value) self :
  let self' := snd (submit_transaction sender recipient signature amount self) in
  chain self' = chain self ∧ nodes self' = nodes self ∧ node_id self' = node_id self.
Proof.
  intros self'. subst self'.
  by destruct (submit_transaction_state sender recipient signature amount self)
    as [-> | ->].
Qed.

(** What [register_node] does: it raises and changes nothing, or it
    adds one entry, which is not the empty string, to the peers. *)
Lemma register_node_outcome (node_url : string) self :
  (∃ e, register_node node_url self = (Raise e, self))
  ∨ ∃ entry, entry ≠ ""%string
             ∧ register_node node_url self
               = (Return tt, set_nodes (nodes self ∪ {[ entry ]}) self).
Proof.
  unfold register_node.
  destruct (Urllib.urlparse node_url) as [parsed_url|e]; [|left; eauto].
  destruct (String.eqb (Urllib.netloc parsed_url) "") eqn:Hnetloc; simpl.
  - destruct (String.eqb (Urllib.path parsed_url) "") eqn:Hpath; simpl;
      [left; eauto|].
    right. exists (Urllib.path parsed_url). split; [|done]. by apply String.eqb_neq.
  - right. exists (Urllib.netloc parsed_url). split; [|done]. by apply String.eqb_neq.
Qed.

Lemma register_node_frame (node_url : string) self :
  let self' := snd (register_node node_url self) in
  chain self' = chain self ∧ transactions self' = transactions self
  ∧ node_id self' = node_id self.
Proof.
  intros self'. subst self'.
  by destruct (register_node_outcome node_url self) as [[e ->] | (entry & _ & ->)].
Qed.

(** In the local flow the chain starts with the genesis block (number
    1, nonce 0, previous hash [00], no transaction) and the block at
    position [i], counted from 0, has the number [i + 1]. *)
Theorem local_run_block_numbers self :
  local_run self →
  (∃ now, head (chain self) = Some (mkBlock 1 now [] 0 "00"))
  ∧ ∀ (i : nat) block,
      chain self !! i = Some block → block_number block = (Z.of_nat i + 1)%Z.
Proof.
  induction 1 as
    [ uuid now
    | self sender recipient signature amount _ IH
    | self node_url _ IH
    | self self' fuel now block _ [[now0 IHhead] IHnum] Hmine ].
  - split; [by exists now|]. intros [|i] block; simpl; [|done]. by intros [= <-].
  - by destruct (submit_transaction_frame sender recipient signature amount self)
      as (-> & _ & _).
  - by destruct (register_node_frame node_url self) as (-> & _ & _).
  - apply mine_state in Hmine as (Hnumber & _ & ->). simpl. split.
    + exists now0. destruct (chain self); [done|]. done.
    + intros i b Hi. apply lookup_app_Some in Hi as [Hi | [Hlen Hi]]; [by apply IHnum|].
      destruct (i - length (chain self))%nat as [|j] eqn:Hj; simpl in Hi; [|done].
      injection Hi as <-. rewrite Hnumber. unfold len. lia.
Qed.

(** In the local flow every block after the first ends with the reward
    transaction: sender [MINING_SENDER], recipient the identity of the
    node, amount [MINING_REWARD]. *)
Theorem local_run_rewards self :
  local_run self →
  ∀ (i : nat) block,
    chain self !! S i = Some block →
    ∃ pool,
      block_transactions block
      = pool ++ [new_transaction MINING_SENDER (node_id self) (VInt MINING_REWARD)].
Proof.
  induction 1 as
    [ uuid now
    | self sender recipient signature amount _ IH
    | self node_url _ IH
    | self self' fuel now block Hrun IH Hmine ].
  - intros i block. done.
  - by destruct (submit_transaction_frame sender recipient signature amount self)
      as (-> & _ & ->).
  - by destruct (register_node_frame node_url self) as (-> & _ & ->).
  - apply mine_state in Hmine as (_ & Hreward & ->). simpl.
    intros i b Hi. apply lookup_app_Some in Hi as [Hi | [Hlen Hi]]; [by apply (IH i)|].
    destruct (S i - length (chain self))%nat as [|j] eqn:Hj; simpl in Hi; [|done].
    by injection Hi as <-.
Qed.

(** A submission answered with a block number, followed by [/mine]:
    the block mined has that number, and its transactions are the
    former pool, then the submitted transaction, then the reward; the
    pool is empty afterwards. *)
Theorem submit_then_mine (sender recipient signature : string) (amount : value)
    (n : Z) (fuel : nat) (now : float) (self self1 self2 : Blockchain) block :
  submit_transaction sender recipient signature amount self = (Return (VInt n), self1) →
  mine fuel now self1 = Some (Return block, self2) →
  block_number block = n
  ∧ block_transactions block
    = transactions self
      ++ [new_transaction sender recipient amount;
          new_transaction MINING_SENDER (node_id self) (VInt MINING_REWARD)]
  ∧ chain self2 = chain self ++ [block]
  ∧ transactions self2 = [].
Proof.
  intros Hsubmit Hmine.
  assert (n = (len (chain self) + 1)%Z
          ∧ self1 = set_transactions
                      (transactions self ++ [new_transaction sender recipient amount]) self)
    as [-> ->].
  { revert Hsubmit. unfold submit_transaction.
    destruct (String.eqb sender MINING_SENDER); [by intros [= <- <-]|].
    destruct (verify_transaction_signature _ _ _) as [[|]|e]; [|done|done].
    by intros [= <- <-]. }
  apply mine_returns in Hmine as (nn & last_block & _ & _ & -> & Hchain & Hpool).
  simpl in *. rewrite <- app_assoc in Hchain |- *. done.
Qed.

(** ** [register_node] *)

Lemma lstrip_c0_blank (s : string) :
  Urllib.str_forall (λ c, (Urllib.code c <=? 32)%N) s = true →
  Urllib.lstrip_c0 s = ""%string.
Proof.
  induction s as [|c s IH]; simpl; [done|].
  rewrite andb_true_iff. intros [-> Hs]. auto.
Qed.

(** An address that is empty or made of blanks and control characters
    only is refused with [ValueError] and the peers are unchanged. *)
Theorem register_node_blank (node_url : string) self :
  Urllib.str_forall (λ c, (Urllib.code c <=? 32)%N) node_url = true →
  register_node node_url self = (Raise ValueError, self).
Proof.
  intros Hblank. unfold register_node, Urllib.urlparse, Urllib.urlsplit.
  rewrite (lstrip_c0_blank _ Hblank). reflexivity.
Qed.

(** [register_node] touches the peers only: it raises and changes
    nothing, or it answers [None] and the peers are the former ones and
    one entry that is not empty; the chain, the pool and the identity
    stay. *)
Theorem register_node_effect (node_url : string) self :
  chain (snd (register_node node_url self)) = chain self
  ∧ transactions (snd (register_node node_url self)) = transactions self
  ∧ node_id (snd (register_node node_url self)) = node_id self
  ∧ nodes self ⊆ nodes (snd (register_node node_url self))
  ∧ ((∃ e, fst (register_node node_url self) = Raise e
           ∧ snd (register_node node_url self) = self)
     ∨ ∃ entry, entry ≠ ""%string
                ∧ fst (register_node node_url self) = Return tt
                ∧ nodes (snd (register_node node_url self)) = nodes self ∪ {[ entry ]}).
Proof.
  destruct (register_node_frame node_url self) as (Hchain & Hpool & Hid).
  split; [done|]. split; [done|]. split; [done|].
  destruct (register_node_outcome node_url self) as [[e ->] | (entry & Hentry & ->)]; simpl.
  - split; [done|]. left. by exists e.
  - split; [apply union_subseteq_l|]. right. by exists entry.
Qed.

(** ** [verify_transaction_signature] *)

Lemma unhexlify_raises (s : string) (e : exn) :
  unhexlify s = Raise e → isinstance_ValueError e = true.
Proof.
  unfold unhexlify. destruct (negb (is_ascii s)); [by intros [= <-]|].
  destruct (unhexlify_pairs s); [done|]. by intros [= <-].
Qed.

(** The verifier answers [False] exactly when the key is decoded and
    imported and then the signature is not hexadecimal text or the
    [verify] of the library raises a [ValueError]; and it answers
    [True] exactly when key and signature are decoded and [verify]
    returns, whichever boolean it returns. *)
Theorem verify_transaction_signature_answers
    (sender_public_key signature : string) (transaction : OrderedDict) :
  (verify_transaction_signature sender_public_key signature transaction = Return false ↔
   ∃ key_bytes public_key,
     unhexlify sender_public_key = Return key_bytes
     ∧ RSA_importKey key_bytes = Return public_key
     ∧ ((∃ e, unhexlify signature = Raise e)
        ∨ ∃ sig e,
            unhexlify signature = Return sig
            ∧ PKCS1_v1_5_verify public_key (SHA_new (str_OrderedDict transaction)) sig
              = Raise e
            ∧ isinstance_ValueError e = true))
  ∧ (verify_transaction_signature sender_public_key signature transaction = Return true ↔
     ∃ key_bytes public_key sig verdict,
       unhexlify sender_public_key = Return key_bytes
       ∧ RSA_importKey key_bytes = Return public_key
       ∧ unhexlify signature = Return sig
       ∧ PKCS1_v1_5_verify public_key (SHA_new (str_OrderedDict transaction)) sig
         = Return verdict).
Proof.
  unfold verify_transaction_signature.
  destruct (unhexlify sender_public_key) as [key_bytes|e1] eqn:Hkey; simpl.
  2:{ split; (split; [done|]).
      - intros (kb & pk & [=] & _).
      - intros (kb & pk & sg & v & [=] & _). }
  destruct (RSA_importKey key_bytes) as [public_key|e2] eqn:Himport; simpl.
  2:{ split; (split; [done|]).
      - intros (kb & pk & [= <-] & Hpk & _). congruence.
      - intros (kb & pk & sg & v & [= <-] & Hpk & _). congruence. }
  destruct (unhexlify signature) as [sig|e3] eqn:Hsig; simpl.
  - destruct (PKCS1_v1_5_verify public_key (SHA_new (str_OrderedDict transaction)) sig)
      as [verdict|e4] eqn:Hverify.
    + split; split.
      * done.
      * intros (kb & pk & [= <-] & Hpk & [[e He] | (sg & e & [= <-] & Hv & _)]);
          [done|]. congruence.
      * intros _. by exists key_bytes, public_key, sig, verdict.
      * done.
    + destruct (isinstance_ValueError e4) eqn:Hclass; split; split.
      * intros _. exists key_bytes, public_key. split; [done|]. split; [done|].
        right. by exists sig, e4.
      * done.
      * done.
      * intros (kb & pk & sg & v & [= <-] & Hpk & [= <-] & Hv). congruence.
      * done.
      * intros (kb & pk & [= <-] & Hpk & [[e He] | (sg & e & [= <-] & Hv & Hc)]);
          [done|]. congruence.
      * done.
      * intros (kb & pk & sg & v & [= <-] & Hpk & [= <-] & Hv). congruence.
  - rewrite (unhexlify_raises _ _ Hsig). split; split.
    + intros _. exists key_bytes, public_key. split; [done|]. split; [done|].
      left. by exists e3.
    + done.
    + done.
    + intros (kb & pk & sg & v & _ & _ & [=] & _).
Qed.

End Ledger.

Section Handlers.

Context `{L : Library}.

Implicit Types (self : Blockchain) (form : Form).

(** ** [/transaction/new] *)

Lemma form_item_get form (k v : string) :
  form_get form k = Some v → form_item form k = Return v ∧ form_contains form k = true.
Proof. unfold form_item, form_contains. by intros ->. Qed.

(** A form that lacks one of the four fields is answered with 400 and
    [Missing values], whatever the other fields hold, and nothing
    changes. *)
Theorem transaction_new_missing_field form (k : string) self :
  k ∈ required →
  form_get form k = None →
  transaction_new form self = (Replied (mkReply (Plain "Missing values") 400), self).
Proof.
  intros Hk Hmissing. unfold transaction_new.
  destruct (forallb (form_contains form) required) eqn:Hall; [|done].
  exfalso. rewrite forallb_forall in Hall.
  apply list_elem_of_In, Hall in Hk. unfold form_contains in Hk. by rewrite Hmissing in Hk.
Qed.

(** A form whose sender field is the reward sentinel is accepted
    through the public route without any key or signature: the reply
    is 201 with the next block number and the transaction, with the
    recipient and the amount of the form, joins the pool. *)
Theorem transaction_new_reward_sender form (recipient signature amount : string) self :
  form_get form "confirmation_sender_public_key" = Some MINING_SENDER →
  form_get form "confirmation_recipient_public_key" = Some recipient →
  form_get form "transaction_signature" = Some signature →
  form_get form "confirmation_amount" = Some amount →
  transaction_new form self
  = (Replied (mkReply
                (Message ("Transaction will be added to the Block "
                          +:+ str_int (len (chain self) + 1))) 201),
     set_transactions
       (transactions self ++ [new_transaction MINING_SENDER recipient (VStr amount)]) self).
Proof.
  intros Hsender Hrecipient Hsignature Hamount.
  destruct (form_item_get _ _ _ Hsender) as [Hi1 Hc1].
  destruct (form_item_get _ _ _ Hrecipient) as [Hi2 Hc2].
  destruct (form_item_get _ _ _ Hsignature) as [Hi3 Hc3].
  destruct (form_item_get _ _ _ Hamount) as [Hi4 Hc4].
  unfold transaction_new, required. cbn [forallb].
  rewrite Hc1, Hc2, Hc3, Hc4. cbn [andb negb].
  rewrite Hi1, Hi2, Hi3, Hi4. cbn [bind].
  unfold submit_transaction.
  change (String.eqb MINING_SENDER MINING_SENDER) with true. cbv iota.
  assert (truthy (VInt (len (chain self) + 1)) = true) as ->; [|done].
  unfold truthy, len. apply negb_true_iff, Z.eqb_neq. lia.
Qed.

(** The replies of the route and the state: after a reply 400 or 406
    nothing has changed; after a reply 201 the pool has one more
    transaction, built from the sender, the recipient and the amount
    of the form, the amount being kept as the text that was sent. *)
Theorem transaction_new_replies form self (r : reply) (self' : Blockchain) :
  transaction_new form self = (Replied r, self') →
  (reply_status r = 400%Z ∧ self' = self)
  ∨ (reply_status r = 406%Z ∧ self' = self)
  ∨ (reply_status r = 201%Z
     ∧ ∃ sender recipient amount,
         form_get form "confirmation_sender_public_key" = Some sender
         ∧ form_get form "confirmation_recipient_public_key" = Some recipient
         ∧ form_get form "confirmation_amount" = Some amount
         ∧ self' = set_transactions
                     (transactions self ++ [new_transaction sender recipient (VStr amount)])
                     self).
Proof.
  unfold transaction_new.
  destruct (negb (forallb (form_contains form) required)); [intros [= <- <-]; by left|].
  unfold form_item.
  destruct (form_get form "confirmation_sender_public_key") as [sender|] eqn:H1;
    simpl; [|done].
  destruct (form_get form "confirmation_recipient_public_key") as [recipient|] eqn:H2;
    simpl; [|done].
  destruct (form_get form "transaction_signature") as [signature|] eqn:H3; simpl; [|done].
  destruct (form_get form "confirmation_amount") as [amount|] eqn:H4; simpl; [|done].
  assert (truthy (VInt (len (chain self) + 1)) = true) as Htruthy.
  { unfold truthy, len. apply negb_true_iff, Z.eqb_neq. lia. }
  unfold submit_transaction.
  destruct (String.eqb sender MINING_SENDER).
  - rewrite Htruthy. intros [= <- <-]. right. right. split; [done|].
    by exists sender, recipient, amount.
  - destruct (verify_transaction_signature _ _ _) as [[|]|e]; [| |done].
    + rewrite Htruthy. intros [= <- <-]. right. right. split; [done|].
      by exists sender, recipient, amount.
    + simpl. intros [= <- <-]. right. by left.
Qed.

(** ** [/nodes/register] *)

Lemma register_all_app (pre rest : list string) self :
  fst (register_all pre self) = Return tt →
  register_all (pre ++ rest) self = register_all rest (snd (register_all pre self)).
Proof.
  revert self. induction pre as [|p pre IH]; intros self; simpl; [done|].
  destruct (register_node p self) as [[[]|e] self1]; simpl; [|done]. apply IH.
Qed.

(** The errors of the route.  A form without the field [nodes] makes it
    raise [AttributeError].  With the field, the addresses are
    registered from left to right; at the first one that
    [register_node] refuses the exception leaves the route, the
    addresses before it stay registered and those after it are not
    looked at. *)
Theorem nodes_register_errors (strip : string → string) form self :
  (form_get form "nodes" = None →
   nodes_register strip form self = (Unhandled AttributeError, self))
  ∧ ∀ (text : string) (pre : list string) (bad : string) (post : list string) (e : exn),
      form_get form "nodes" = Some text →
      strip <$> split_comma text = pre ++ bad :: post →
      fst (register_all pre self) = Return tt →
      fst (register_node bad (snd (register_all pre self))) = Raise e →
      nodes_register strip form self
      = (Unhandled (Exn e), snd (register_all pre self)).
Proof.
  unfold nodes_register. split; [by intros ->|].
  intros text pre bad post e -> -> Hpre Hbad.
  rewrite (register_all_app pre (bad :: post) self Hpre). simpl.
  destruct (register_node_outcome bad (snd (register_all pre self)))
    as [[e' Hraise] | (entry & _ & Hadd)].
  - rewrite Hraise in Hbad |- *. simpl in Hbad. by injection Hbad as ->.
  - rewrite Hadd in Hbad. done.
Qed.

(** When every address is accepted the reply is 200, lists the peers
    the node now has, and these contain the former peers; the chain and
    the pool are the same. *)
Theorem nodes_register_reply (strip : string → string) form self
    (r : reply) (self' : Blockchain) :
  nodes_register strip form self = (Replied r, self') →
  r = mkReply (NodesAdded "Nodes have been added" (elements (nodes self'))) 200
  ∧ nodes self ⊆ nodes self'
  ∧ chain self' = chain self
  ∧ transactions self' = transactions self.
Proof.
  unfold nodes_register.
  destruct (form_get form "nodes") as [text|]; [|done].
  generalize (strip <$> split_comma text). intros urls.
  destruct (register_all urls self) as [[[]|e] self1] eqn:Hall; [|done].
  intros [= <- <-]. split; [done|].
  revert self Hall. induction urls as [|u urls IH]; intros self; simpl.
  - by intros [= <-].
  - destruct (register_node_outcome u self) as [[e ->] | (entry & _ & ->)]; [done|].
    intros Hall. destruct (IH _ Hall) as (Hsub & Hchain & Hpool). simpl in *.
    split; [|done]. etrans; [apply (union_subseteq_l _ {[ entry ]})|done].
Qed.

End Handlers.

(** * The properties on the toy instance *)

Import Demo.

Example demo_proofs :
  map (λ n, valid_proof [] "a129" n 2) [0; 1; 2; 3; 4; 5; 6]%Z
  = [false; true; false; false; false; false; true].
Proof. vm_compute. reflexivity. Qed.

Example demo_hashes : hash <$> chain node2 = ["a129"; "00130"; "00110"]%string.
Proof. vm_compute. reflexivity. Qed.

Example demo_urlparse :
  Urllib.urlparse "localhost:5001"
  = Return (Urllib.mkParseResult "localhost" "" "5001" "" "" "")
  ∧ Urllib.urlparse "http://localhost:5001"
    = Return (Urllib.mkParseResult "http" "localhost:5001" "" "" "" "")
  ∧ Urllib.urlparse "127.0.0.1:5001"
    = Return (Urllib.mkParseResult "" "" "127.0.0.1:5001" "" "" "")
  ∧ Urllib.urlparse "http://127.0.0.1:5001/chain;x?y=1#z"
    = Return (Urllib.mkParseResult "http" "127.0.0.1:5001" "/chain" "x" "y=1" "z")
  ∧ Urllib.urlparse "a/b;c/d;e"
    = Return (Urllib.mkParseResult "" "" "a/b;c/d" "e" "" "").
Proof. repeat split; vm_compute; reflexivity. Qed.

Lemma local_run_node2 : local_run node2.
Proof.
  eapply (run_mine (snd (submit_transaction "ab" "cd" "ab" (VStr "5") node1)) _
                   100 1002%Z).
  - apply run_submit.
    eapply (run_mine node0 _ 100 1001%Z); [apply run_init | vm_compute; reflexivity].
  - vm_compute; reflexivity.
Defined.

(** C1 on the node that mined two blocks. *)
Lemma local_chain_valid_witness :
  local_run node2 ∧ valid_chain (chain node2) = Return true.
Proof.
  split; [exact local_run_node2 | exact (local_chain_valid node2 local_run_node2)].
Defined.


(** C6 on the reward of the first mined block. *)
Lemma submit_transaction_reward_bypass_witness :
  submit_transaction MINING_SENDER "5f3a" "" (VInt MINING_REWARD) node0
  = (Return (VInt 2),
     set_transactions [new_transaction MINING_SENDER "5f3a" (VInt MINING_REWARD)] node0).
Proof.
  apply (proj1 (submit_transaction_reward_bypass
                  MINING_SENDER "5f3a" "" (VInt MINING_REWARD) node0)).
  reflexivity.
Defined.

(** C7: the signature [cd] does not match the key [ab]; the toy
    [verify] returns [False] and the transaction is accepted. *)
Lemma submit_transaction_accepts_unverified_witness :
  submit_transaction "ab" "cd" "cd" (VStr "5") node0
  = (Return (VInt (len (chain node0) + 1)),
     set_transactions
       (transactions node0 ++ [new_transaction "ab" "cd" (VStr "5")]) node0).
Proof.
  apply (submit_transaction_accepts_unverified "ab" "cd" "cd" (VStr "5") node0
           [Byte.xab] [Byte.xcd] [Byte.xab]);
    [discriminate | reflexivity | reflexivity | reflexivity | vm_compute; reflexivity].
Defined.

(** C2: the node at start-up and two peers that serve a valid chain of
    three blocks. *)
Lemma resolve_conflicts_second_peer_raises_witness :
  resolve_conflicts_in get_all_up ["127.0.0.1:5002"; "127.0.0.1:5003"] node0
  = (Raise TypeError, node0).
Proof.
  apply (resolve_conflicts_second_peer_raises get_all_up
           "127.0.0.1:5002" "127.0.0.1:5003" [] peer_response peer_response node0);
    [ reflexivity | reflexivity | vm_compute; reflexivity | vm_compute; reflexivity
    | reflexivity | reflexivity ].
Defined.

(** The same through the set of peers of the node, whatever the order
    of iteration. *)
Example resolve_conflicts_two_peers_raise :
  resolve_conflicts get_all_up node0_two_peers = (Raise TypeError, node0_two_peers).
Proof. vm_compute. reflexivity. Qed.

(** C3, as stated, fails: with the peer on port 5002 down the request
    raises [ConnectionError], while without that peer the chain of the
    other peer is adopted. *)
Lemma resolve_conflicts_transport_failure_raises :
  resolve_conflicts get_one_down node0_two_peers
  = (Raise ConnectionError, node0_two_peers)
  ∧ resolve_conflicts get_one_down node0_one_peer
    = (Return true, set_chain (chain node2) node0_one_peer).
Proof. split; vm_compute; reflexivity. Qed.

(** C3, as amended, on a peer that answers 404. *)
Lemma resolve_conflicts_skips_status_witness :
  resolve_conflicts_in get_one_404 ["127.0.0.1:5002"; "127.0.0.1:5003"] node0
  = resolve_conflicts_in get_one_404 ["127.0.0.1:5003"] node0.
Proof.
  apply (proj1 (resolve_conflicts_skips_status get_one_404
                  [] "127.0.0.1:5002" ["127.0.0.1:5003"] node0)
               (mkResponse 404 0 []));
    [reflexivity | discriminate].
Defined.

(** C9, at the input where it fails: the peer [localhost:5001]
    registered without and with the scheme prefix.  The bare text is
    parsed as the scheme [localhost] and the path [5001], the branch
    for an address without scheme stores [5001], and the node is left
    with two entries for the one peer. *)
Lemma register_node_localhost_two_entries :
  nodes (snd (register_node "http://localhost:5001"
                (snd (register_node "localhost:5001" node0))))
  = {[ "5001"; "localhost:5001" ]}
  ∧ size (nodes (snd (register_node "http://localhost:5001"
                        (snd (register_node "localhost:5001" node0))))) = 2.
Proof. split; vm_compute; reflexivity. Qed.

(** The two forms of [127.0.0.1:5001] give one entry. *)
Lemma register_node_hostport_forms_witness :
  register_node "127.0.0.1:5001" node0
  = (Return tt, set_nodes {[ "127.0.0.1:5001" ]} node0)
  ∧ nodes (snd (register_node "http://127.0.0.1:5001"
                  (snd (register_node "127.0.0.1:5001" node0))))
    = {[ "127.0.0.1:5001" ]}.
Proof.
  destruct (register_node_hostport_forms "127.0.0.1:5001" node0 eq_refl)
    as (Hbare & _ & _ & Hone & _).
  split; [|exact (Hone eq_refl)].
  rewrite Hbare. vm_compute. reflexivity.
Defined.

(** C10: two first blocks with the same digest anchor the same
    verdict. *)
Lemma valid_chain_single_block_witness :
  valid_chain [genesis12] = Return true
  ∧ valid_chain [genesis21; second_block] = valid_chain [genesis12; second_block].
Proof.
  destruct (valid_chain_single_block genesis12) as [Hone Hanchor].
  split; [exact Hone|].
  apply Hanchor. vm_compute. reflexivity.
Defined.

(** * The further properties on the toy instance *)

Import DemoRoutes.

Example demo_chain_node2 :
  chain node0 = [node2_first] ∧ chain node1 = [node2_first; node2_second]
  ∧ chain node2 = [node2_first; node2_second; node2_third].
Proof. repeat split; vm_compute; reflexivity. Qed.

Example demo_split_comma :
  split_comma "" = [""]%string
  ∧ split_comma "a,,b" = ["a"; ""; "b"]%string
  ∧ split_comma "a, b," = ["a"; " b"; ""]%string.
Proof. repeat split; reflexivity. Qed.

Lemma valid_chain_broken_link_witness :
  valid_chain ([node2_first] ++ node2_second :: unlinked_block :: [node2_third])
  = Return false.
Proof.
  apply (valid_chain_broken_link [node2_first] node2_second unlinked_block
           [node2_third]); [vm_compute; reflexivity | vm_compute; discriminate].
Defined.

Lemma valid_chain_missing_key_witness :
  valid_chain ([] ++ node2_first :: block_without_amount :: []) = Raise KeyError.
Proof.
  apply (valid_chain_missing_key [] node2_first block_without_amount []
           [("sender_public_key", VStr "ab"); ("recipient_public_key", VStr "cd")]
           "amount").
  - reflexivity.
  - vm_compute; reflexivity.
  - apply list_elem_of_In. simpl. by left.
  - apply list_elem_of_In. simpl. tauto.
  - intros Hin. apply list_elem_of_In in Hin. simpl in Hin.
    destruct Hin as [Heq | [Heq | []]]; discriminate Heq.
Defined.

(** The last block of the chain of [node2] with another number,
    timestamp and reward: the chain is still accepted. *)
Lemma valid_chain_last_block_unchecked_witness :
  valid_chain (chain node1 ++ [forged_block]) = valid_chain (chain node1 ++ [node2_third])
  ∧ valid_chain (chain node1 ++ [forged_block]) = Return true.
Proof.
  assert (valid_chain (chain node1 ++ [forged_block])
          = valid_chain (chain node1 ++ [node2_third])) as Hsame.
  { apply (valid_chain_last_block_unchecked (chain node1) forged_block node2_third);
      reflexivity. }
  split; [exact Hsame|]. rewrite Hsame. vm_compute. reflexivity.
Defined.

Lemma valid_proof_difficulty_range_witness :
  @valid_proof short_digest_library [] "a129" 5%Z 3%Z = false
  ∧ ∀ fuel start,
      @proof_of_work_loop short_digest_library 3%Z [] "a129" fuel start = None.
Proof.
  apply (proj2 (proj2 (@valid_proof_difficulty_range short_digest_library
                         [] "a129" 5%Z)) 3%Z).
  intros guess. simpl. lia.
Defined.

Lemma resolve_conflicts_quiet_peers_witness :
  resolve_conflicts_in get_one_404 ["127.0.0.1:5002"; "127.0.0.1:5003"] node2
  = (Return false, node2).
Proof.
  apply (resolve_conflicts_quiet_peers get_one_404
           ["127.0.0.1:5002"; "127.0.0.1:5003"] node2).
  intros node Hin. apply list_elem_of_In in Hin. simpl in Hin.
  destruct Hin as [<- | [<- | []]].
  - exists (mkResponse 404 0 []). split; [reflexivity | left; discriminate].
  - exists peer_response. split; [reflexivity | right; vm_compute; discriminate].
Defined.

Lemma resolve_conflicts_adopts_valid_longer_witness :
  ∃ node response,
    node ∈ ["127.0.0.1:5002"; "127.0.0.1:5003"]
    ∧ get_one_404 (chain_url node) = Return response
    ∧ status_code response = 200%Z
    ∧ (len (chain node0) < resp_length response)%Z
    ∧ valid_chain (resp_chain response) = Return true
    ∧ set_chain (chain node2) node0 = set_chain (resp_chain response) node0.
Proof.
  apply (resolve_conflicts_adopts_valid_longer get_one_404
           ["127.0.0.1:5002"; "127.0.0.1:5003"] node0 (set_chain (chain node2) node0)).
  vm_compute. reflexivity.
Defined.

(** The node with three blocks is left with one block. *)
Lemma resolve_conflicts_trusts_length_witness :
  resolve_conflicts_in get_inflated ["127.0.0.1:5002"] node2
  = (Return true, set_chain [genesis21] node2).
Proof.
  apply (resolve_conflicts_trusts_length get_inflated "127.0.0.1:5002" 4 genesis21 node2);
    [reflexivity | vm_compute; reflexivity].
Defined.

Lemma resolve_conflicts_empty_chain_witness :
  resolve_conflicts_in get_empty (["127.0.0.1:5002"] ++ "127.0.0.1:5003" :: []) node2
  = (Raise IndexError, node2).
Proof.
  apply (resolve_conflicts_empty_chain get_empty ["127.0.0.1:5002"] "127.0.0.1:5003" []
           9 node2); [ | reflexivity | vm_compute; reflexivity].
  intros p Hin. apply list_elem_of_In in Hin. simpl in Hin.
  destruct Hin as [<- | []].
  exists (mkResponse 404 0 []). split; [reflexivity | left; discriminate].
Defined.

Example demo_sort_keys :
  sort_keys (new_transaction "ab" "cd" (VStr "5"))
  = [("amount", VStr "5"); ("recipient_public_key", VStr "cd");
     ("sender_public_key", VStr "ab")].
Proof. reflexivity. Qed.

Lemma local_run_peer2 : @local_run sorted_library peer2.
Proof.
  eapply (@run_mine sorted_library
            (snd (@submit_transaction sorted_library "ab" "cd" "ab" (VStr "5") peer1)) _
            200 2002%Z).
  - apply (@run_submit sorted_library).
    eapply (@run_mine sorted_library peer0 _ 200 2001%Z);
      [apply (@run_init sorted_library) | vm_compute; reflexivity].
  - vm_compute; reflexivity.
Defined.

Lemma sorted_library_dumps (block : Block_ Z) :
  @json_dumps sorted_library (wire_block block) = @json_dumps sorted_library block.
Proof. simpl. by rewrite wire_block_idempotent. Qed.

(** The node at start-up adopts the three blocks of the peer as they
    arrive, and the peer asked about itself keeps its chain. *)
Lemma resolve_conflicts_honest_peer_witness :
  @resolve_conflicts_in sorted_library get_honest ["127.0.0.1:5002"] local0
  = (Return true, @set_chain sorted_library (wire_block <$> chain peer2) local0)
  ∧ @resolve_conflicts_in sorted_library get_honest ["127.0.0.1:5002"] peer2
    = (Return false, peer2)
  ∧ length (chain peer2) = 3%nat.
Proof.
  split; [|split].
  - exact (@resolve_conflicts_honest_peer sorted_library get_honest "127.0.0.1:5002"
             peer2 local0 sorted_library_dumps local_run_peer2 eq_refl).
  - exact (@resolve_conflicts_honest_peer sorted_library get_honest "127.0.0.1:5002"
             peer2 peer2 sorted_library_dumps local_run_peer2 eq_refl).
  - vm_compute. reflexivity.
Defined.

Lemma local_run_block_numbers_witness :
  (∃ now, head (chain node2) = Some (mkBlock 1 now [] 0 "00"))
  ∧ ∀ (i : nat) (block : Block),
      chain node2 !! i = Some block → block_number block = (Z.of_nat i + 1)%Z.
Proof. exact (local_run_block_numbers node2 local_run_node2). Defined.

Lemma local_run_rewards_witness :
  ∃ pool,
    block_transactions node2_third
    = pool ++ [new_transaction MINING_SENDER (node_id node2) (VInt MINING_REWARD)].
Proof.
  apply (local_run_rewards node2 local_run_node2 1 node2_third).
  vm_compute. reflexivity.
Defined.

Lemma submit_then_mine_witness :
  block_number node2_third = 3%Z
  ∧ block_transactions node2_third
    = transactions node1
      ++ [new_transaction "ab" "cd" (VStr "5");
          new_transaction MINING_SENDER (node_id node1) (VInt MINING_REWARD)]
  ∧ chain node2 = chain node1 ++ [node2_third]
  ∧ transactions node2 = [].
Proof.
  apply (@submit_then_mine Demo.library "ab" "cd" "ab" (VStr "5") 3 100 1002%Z node1
           (snd (submit_transaction "ab" "cd" "ab" (VStr "5") node1)) node2 node2_third);
    vm_compute; reflexivity.
Defined.

Lemma register_node_blank_witness :
  register_node "  " node0 = (Raise ValueError, node0).
Proof. apply (register_node_blank "  " node0). reflexivity. Defined.

Lemma transaction_new_missing_field_witness :
  transaction_new short_form node0 = (Replied (mkReply (Plain "Missing values") 400), node0).
Proof.
  apply (transaction_new_missing_field short_form "confirmation_amount" node0);
    [|reflexivity].
  apply list_elem_of_In. simpl. tauto.
Defined.

(** A reward of 1000 for [cafe], sent through the route. *)
Lemma transaction_new_reward_sender_witness :
  transaction_new reward_form node0
  = (Replied (mkReply (Message "Transaction will be added to the Block 2") 201),
     set_transactions [new_transaction MINING_SENDER "cafe" (VStr "1000")] node0).
Proof.
  exact (transaction_new_reward_sender reward_form "cafe" "" "1000" node0
           eq_refl eq_refl eq_refl eq_refl).
Defined.

Lemma transaction_new_replies_witness :
  transaction_new bad_signature_form node0
  = (Replied (mkReply (Message "Invalid transaction/signature") 406), node0)
  ∧ ((406 = 400 ∧ node0 = node0)
     ∨ (406 = 406 ∧ node0 = node0)
     ∨ (406 = 201
        ∧ ∃ sender recipient amount,
            form_get bad_signature_form "confirmation_sender_public_key" = Some sender
            ∧ form_get bad_signature_form "confirmation_recipient_public_key"
              = Some recipient
            ∧ form_get bad_signature_form "confirmation_amount" = Some amount
            ∧ node0 = set_transactions
                        (transactions node0
                         ++ [new_transaction sender recipient (VStr amount)]) node0))%Z.
Proof.
  assert (transaction_new bad_signature_form node0
          = (Replied (mkReply (Message "Invalid transaction/signature") 406), node0))
    as Hreply by (vm_compute; reflexivity).
  split; [exact Hreply|].
  exact (transaction_new_replies bad_signature_form node0 _ node0 Hreply).
Defined.

(** The first address is registered, the empty one is refused and the
    third is never registered. *)
Lemma nodes_register_errors_witness :
  nodes_register strip gap_form node0
  = (Unhandled (Exn ValueError), snd (register_all ["127.0.0.1:5002"] node0))
  ∧ elements (nodes (snd (nodes_register strip gap_form node0))) = ["127.0.0.1:5002"].
Proof.
  assert (nodes_register strip gap_form node0
          = (Unhandled (Exn ValueError), snd (register_all ["127.0.0.1:5002"] node0)))
    as Hraise.
  { apply (proj2 (nodes_register_errors strip gap_form node0)
                 "127.0.0.1:5002,,127.0.0.1:5003" ["127.0.0.1:5002"] "" ["127.0.0.1:5003"]
                 ValueError); vm_compute; reflexivity. }
  split; [exact Hraise|]. rewrite Hraise. vm_compute. reflexivity.
Defined.

Lemma nodes_register_reply_witness :
  nodes node0_one_peer ⊆ nodes (snd (nodes_register strip two_nodes_form node0_one_peer))
  ∧ chain (snd (nodes_register strip two_nodes_form node0_one_peer)) = chain node0_one_peer
  ∧ size (nodes (snd (nodes_register strip two_nodes_form node0_one_peer))) = 2.
Proof.
  destruct (nodes_register_reply strip two_nodes_form node0_one_peer
              (mkReply (NodesAdded "Nodes have been added"
                          (elements (nodes (snd (nodes_register strip two_nodes_form
                                                   node0_one_peer))))) 200)
              (snd (nodes_register strip two_nodes_form node0_one_peer)))
    as (_ & Hsub & Hchain & _); [vm_compute; reflexivity|].
  split; [exact Hsub|]. split; [exact Hchain|]. vm_compute. reflexivity.
Defined.

